(** * MediTrack: appointment lifecycle, booking and registration

    A shallow embedding of the decision logic of the MediTrack React
    application:

    - [src/contexts/AuthContext.tsx]  (registration, login, logout),
    - [BookAppointment]               (the booking form's submit handler),
    - [src/pages/DoctorDashboard.tsx] (status changes, prescriptions, statistics),
    - [PatientDashboard]              (prescription display, feedback, statistics).

    The Firestore collections are finite maps from document id to document.
    A handler that awaits a write is a function from the store (and the
    component's state) to an outcome and the new store.  Rendering is
    modelled only as far as it decides which control exists: a button that
    is not rendered, or is disabled, cannot be clicked. *)

From Stdlib Require Import ZArith QArith Lia.
From stdpp Require Import gmap strings list fin_maps relations.

Open Scope string_scope.
Open Scope Z_scope.

(** ** Data model (the [Appointment] interface of both dashboards) *)

Inductive Status : Type :=
  | pending        (* 'pending'     *)
  | confirmed      (* 'confirmed'   *)
  | in_progress    (* 'in-progress' *)
  | completed      (* 'completed'   *)
  | cancelled.     (* 'cancelled'   *)

Global Instance Status_eq_dec : EqDecision Status.
Proof. solve_decision. Defined.

Record Prescription : Type := mkPrescription {
  medicine : string;
  dosage : string;
  frequency : string;
  instructions : string
}.

(** [rating] is a JS number; the star buttons only produce integers. *)
Record Feedback : Type := mkFeedback {
  rating : Z;
  comment : string
}.

(** The document stored under an id of the 'appointments' collection.
    [createdAt] is the [Date] of creation, as a timestamp. *)
Record Appointment : Type := mkAppointment {
  doctorId : string;
  doctorName : string;
  patientId : string;
  patientName : string;
  date : string;
  time : string;
  status : Status;
  note : string;
  prescription : option Prescription;
  feedback : option Feedback;
  createdAt : Z
}.

Inductive Role : Type := doctor | patient.

Global Instance Role_eq_dec : EqDecision Role.
Proof. solve_decision. Defined.

Record UserProfile : Type := mkUserProfile {
  uid : string;
  email : string;
  role : Role;
  firstName : string;
  lastName : string;
  profileCreatedAt : Z
}.

(** ** JavaScript helpers *)

(** A string is truthy unless it is empty. *)
Definition truthy (s : string) : bool :=
  match s with
  | EmptyString => false
  | String _ _ => true
  end.

(** [s.endsWith(suffix)]: the last [suffix.length] characters of [s] are
    [suffix]; false when [s] is shorter than [suffix]. *)
Definition endsWith (s suffix : string) : bool :=
  let n := String.length s in
  let k := String.length suffix in
  if (k <=? n)%nat then String.eqb (String.substring (n - k) k s) suffix else false.

(** White space removed by [String.prototype.trim], within ASCII: tab, line
    feed, vertical tab, form feed, carriage return and space. *)
Definition isWhiteSpace (c : Ascii.ascii) : bool :=
  let n := Ascii.nat_of_ascii c in
  ((9 <=? n)%nat && (n <=? 13)%nat) || (n =? 32)%nat.

Fixpoint trimStart (s : string) : string :=
  match s with
  | EmptyString => EmptyString
  | String c r => if isWhiteSpace c then trimStart r else s
  end.

Definition trimEnd (s : string) : string :=
  String.rev (trimStart (String.rev s)).

Definition trim (s : string) : string := trimEnd (trimStart s).

(** [`${a} ${b}`] *)
Definition fullName (first last : string) : string :=
  first +:+ " " +:+ last.

(** ** Firestore: a collection is a finite map from document id to document *)

(** [updateDoc(doc(db, coll, id), fields)] merges [fields] into an existing
    document and rejects when there is none. *)
Definition updateDoc {A : Type} (coll : gmap string A) (id : string)
    (merge : A → A) : option (gmap string A) :=
  match coll !! id with
  | Some d => Some (<[id := merge d]> coll)
  | None => None
  end.

(** [addDoc(collection, data)] stores [data] under an id generated by the
    store; [newId] is that id. *)
Definition addDoc {A : Type} (coll : gmap string A) (newId : string)
    (data : A) : gmap string A :=
  <[newId := data]> coll.

(** [setDoc(doc(db, coll, id), data)] creates or replaces. *)
Definition setDoc {A : Type} (coll : gmap string A) (id : string)
    (data : A) : gmap string A :=
  <[id := data]> coll.

(** The documents of [query(collection, where(...), ...)], each with its id
    ([{ id: doc.id, ...doc.data() }]).  The dashboards sort this array by
    date and time; nothing below depends on its order. *)
Definition snapshot {A : Type} (coll : gmap string A) (where_ : A → bool)
    : list (string * A) :=
  List.filter (λ d, where_ d.2) (map_to_list coll).

(** The field merges the handlers pass to [updateDoc]. *)
Definition mergeStatus (newStatus : Status) (a : Appointment) : Appointment :=
  mkAppointment (doctorId a) (doctorName a) (patientId a) (patientName a)
    (date a) (time a) newStatus (note a) (prescription a) (feedback a)
    (createdAt a).

Definition mergeCompleted (p : Prescription) (a : Appointment) : Appointment :=
  mkAppointment (doctorId a) (doctorName a) (patientId a) (patientName a)
    (date a) (time a) completed (note a) (Some p) (feedback a)
    (createdAt a).

Definition mergeFeedback (f : Feedback) (a : Appointment) : Appointment :=
  mkAppointment (doctorId a) (doctorName a) (patientId a) (patientName a)
    (date a) (time a) (status a) (note a) (prescription a) (Some f)
    (createdAt a).

(** [array.includes(x)] *)
Definition includes {A : Type} `{EqDecision A} (l : list A) (x : A) : bool :=
  bool_decide (x ∈ l).

(** A card for document [id] is among [cards] and satisfies [cond]: the
    control guarded by [cond] is rendered for it. *)
Definition rendered (cards : list (string * Appointment)) (id : string)
    (cond : Appointment → bool) : bool :=
  existsb (λ d, String.eqb d.1 id && cond d.2) cards.

(** ** AuthContext.tsx *)

Module AuthContext.

(** A Firebase Auth account, found by its e-mail address. *)
Record Account : Type := mkAccount {
  accountUid : string;
  accountPassword : string
}.

(** The provider's state together with the two stores it talks to. *)
Record State : Type := mkState {
  accounts : gmap string Account;      (* Firebase Auth, by e-mail *)
  users : gmap string UserProfile;     (* the 'users' collection *)
  currentUser : option string;         (* uid of the signed-in user *)
  userProfile : option UserProfile
}.

Definition initialState : State := mkState ∅ ∅ None None.

Inductive Failure : Type :=
  | EmailDomainRequired   (* 'Email must end with @meditrack.local' *)
  | AuthRejected.         (* an error thrown by Firebase Auth *)

Inductive Outcome : Type :=
  | Resolved
  | Threw (reason : Failure).

Definition validateEmail (email : string) : bool :=
  endsWith email "@meditrack.local".

(** Firebase creates the account when the address is free; [newUid] is
    the uid it assigns.  Its other rejections (malformed address, weak
    password) are further ways to throw and are not distinguished. *)
Definition createUserWithEmailAndPassword (auth : gmap string Account)
    (email password newUid : string) : option (string * gmap string Account) :=
  match auth !! email with
  | Some _ => None
  | None => Some (newUid, <[email := mkAccount newUid password]> auth)
  end.

Definition signInWithEmailAndPassword (auth : gmap string Account)
    (email password : string) : option string :=
  match auth !! email with
  | Some acc =>
      if String.eqb (accountPassword acc) password
      then Some (accountUid acc) else None
  | None => None
  end.

(** [fetchUserProfile]: the profile is replaced only when the document
    exists. *)
Definition fetchUserProfile (st : State) (uid : string) : State :=
  match users st !! uid with
  | Some profileData =>
      mkState (accounts st) (users st) (currentUser st) (Some profileData)
  | None => st
  end.

(** The [onAuthStateChanged] callback. *)
Definition onAuthStateChanged (st : State) (user : option string) : State :=
  let st1 := mkState (accounts st) (users st) user (userProfile st) in
  match user with
  | Some uid => fetchUserProfile st1 uid
  | None => mkState (accounts st1) (users st1) (currentUser st1) None
  end.

(** [register].  Creating the account signs the new user in; the profile
    document is written afterwards and becomes the provider's profile. *)
Definition register (st : State)
    (email password firstName lastName : string) (role : Role)
    (newUid : string) (now : Z) : Outcome * State :=
  if negb (validateEmail email) then (Threw EmailDomainRequired, st)
  else
    match createUserWithEmailAndPassword (accounts st) email password newUid with
    | None => (Threw AuthRejected, st)
    | Some (userUid, accounts') =>
        let profile :=
          mkUserProfile userUid email role firstName lastName now in
        let signedIn :=
          onAuthStateChanged
            (mkState accounts' (users st) (currentUser st) (userProfile st))
            (Some userUid) in
        (Resolved,
         mkState (accounts signedIn) (setDoc (users signedIn) userUid profile)
           (currentUser signedIn) (Some profile))
    end.

Definition login (st : State) (email password : string) : Outcome * State :=
  match signInWithEmailAndPassword (accounts st) email password with
  | Some uid => (Resolved, onAuthStateChanged st (Some uid))
  | None => (Threw AuthRejected, st)
  end.

Definition logout (st : State) : Outcome * State :=
  let signedOut := onAuthStateChanged st None in
  (Resolved,
   mkState (accounts signedOut) (users signedOut) (currentUser signedOut) None).

(** What the rest of the application reads through [useAuth()]: the
    caller's user id and role. *)
Definition identity (st : State) : option (string * Role) :=
  (λ p, (uid p, role p)) <$> userProfile st.

Inductive Call : Type :=
  | Register (email password firstName lastName : string) (role : Role)
      (newUid : string) (now : Z)
  | Login (email password : string)
  | Logout.

Definition call (st : State) (c : Call) : Outcome * State :=
  match c with
  | Register email password firstName lastName role newUid now =>
      register st email password firstName lastName role newUid now
  | Login email password => login st email password
  | Logout => logout st
  end.

(** The state after a sequence of calls, failed ones included. *)
Definition calls (st : State) (cs : list Call) : State :=
  fold_left (λ s c, (call s c).2) cs st.

End AuthContext.

(** ** BookAppointment *)

Module BookAppointment.

Definition timeSlots : list string :=
  [ "09:00"; "09:30"; "10:00"; "10:30"; "11:00"; "11:30";
    "14:00"; "14:30"; "15:00"; "15:30"; "16:00"; "16:30" ].

(** The form's state variables [selectedDoctor], [date], [time], [note]. *)
Record Form : Type := mkForm {
  selectedDoctor : string;
  selectedDate : string;
  selectedTime : string;
  noteText : string
}.

(** [fetchDoctors]: the 'users' documents whose role is 'doctor'. *)
Definition fetchDoctors (users : gmap string UserProfile) : list UserProfile :=
  (snapshot users (λ u, bool_decide (role u = doctor))).*2.

(** [todayAppointments]: the size of the live query
    [where('patientId', '==', userProfile.uid), where('date', '==', today)]. *)
Definition todayAppointments (db : gmap string Appointment)
    (userProfile : UserProfile) (today : string) : nat :=
  length (snapshot db (λ a,
    bool_decide (patientId a = uid userProfile) && bool_decide (date a = today))).

Inductive Outcome : Type :=
  | DailyLimitExceeded      (* 'You can only book a maximum of 2 appointments per day.' *)
  | RequiredFieldsMissing   (* 'Please fill in all required fields.' *)
  | PastDate                (* 'Please select a future date.' *)
  | BookingFailed           (* 'Failed to book appointment. Please try again.' *)
  | Booked.                 (* 'Appointment booked successfully!' *)

(** [handleSubmit].  [today] is the caller's current date
    ([new Date().toISOString().split('T')[0]]), [now] the creation time and
    [newId] the id the store gives the new document.  [date < today]
    compares the two strings character by character, as [String.ltb] does.
    An unknown [selectedDoctor] makes [selectedDoctorData!.firstName]
    throw inside the [try], before anything is written. *)
Definition handleSubmit (db : gmap string Appointment)
    (userProfile : UserProfile) (doctors : list UserProfile)
    (today : string) (form : Form) (newId : string) (now : Z)
    : Outcome * gmap string Appointment :=
  if (2 <=? todayAppointments db userProfile today)%nat then
    (DailyLimitExceeded, db)
  else if negb (truthy (selectedDoctor form))
          || negb (truthy (selectedDate form))
          || negb (truthy (selectedTime form)) then
    (RequiredFieldsMissing, db)
  else if String.ltb (selectedDate form) today then
    (PastDate, db)
  else
    match List.find (λ doc, String.eqb (uid doc) (selectedDoctor form)) doctors with
    | None => (BookingFailed, db)
    | Some selectedDoctorData =>
        (Booked,
         addDoc db newId
           {| patientId := uid userProfile;
              patientName := fullName (firstName userProfile) (lastName userProfile);
              doctorId := selectedDoctor form;
              doctorName := fullName (firstName selectedDoctorData)
                                     (lastName selectedDoctorData);
              date := selectedDate form;
              time := selectedTime form;
              note := trim (noteText form);
              status := pending;
              prescription := None;
              feedback := None;
              createdAt := now |})
    end.

(** The options of the two [<select>] elements: the placeholder with the
    empty value, then one option per doctor, respectively per slot. *)
Definition doctorOptions (doctors : list UserProfile) : list string :=
  EmptyString :: (uid <$> doctors).

Definition timeOptions : list string := EmptyString :: timeSlots.

End BookAppointment.

(** ** DoctorDashboard.tsx *)

Module DoctorDashboard.

(** The component's state that the handlers read and write. *)
Record State : Type := mkState {
  selectedAppointment : option string;
  prescriptionData : Prescription
}.

Definition emptyPrescription : Prescription :=
  mkPrescription EmptyString EmptyString EmptyString EmptyString.

Definition initialState : State := mkState None emptyPrescription.

Inductive Notice : Type :=
  | AppointmentAccepted    (* 'Appointment accepted successfully!' *)
  | AppointmentUpdated     (* 'Appointment updated successfully!' *)
  | StatusUpdateFailed     (* 'Failed to update appointment status' *)
  | MedicineMissing        (* 'Please enter medicine name' *)
  | PrescriptionAdded      (* 'Prescription added and appointment completed!' *)
  | PrescriptionFailed.    (* 'Failed to add prescription' *)

(** The live query [where('doctorId', '==', userProfile.uid)]. *)
Definition appointments (db : gmap string Appointment) (uid : string)
    : list (string * Appointment) :=
  snapshot db (λ a, bool_decide (doctorId a = uid)).

Definition updateAppointmentStatus (db : gmap string Appointment)
    (appointmentId : string) (newStatus : Status)
    : Notice * gmap string Appointment :=
  match updateDoc db appointmentId (mergeStatus newStatus) with
  | Some db' =>
      (if decide (newStatus = confirmed)
       then AppointmentAccepted else AppointmentUpdated, db')
  | None => (StatusUpdateFailed, db)
  end.

Definition handlePrescriptionSubmit (db : gmap string Appointment)
    (st : State) (appointmentId : string)
    : Notice * gmap string Appointment * State :=
  if negb (truthy (trim (medicine (prescriptionData st)))) then
    (MedicineMissing, db, st)
  else
    match updateDoc db appointmentId (mergeCompleted (prescriptionData st)) with
    | Some db' => (PrescriptionAdded, db', mkState None emptyPrescription)
    | None => (PrescriptionFailed, db, st)
    end.

Definition pendingAppointments (apps : list (string * Appointment)) :=
  List.filter (λ apt, bool_decide (status apt.2 = pending)) apps.

Definition activeAppointments (apps : list (string * Appointment)) :=
  List.filter (λ apt, includes [confirmed; in_progress] (status apt.2)) apps.

Definition completedAppointments (apps : list (string * Appointment)) :=
  List.filter (λ apt, bool_decide (status apt.2 = completed)) apps.

Definition appointmentsWithFeedback (apps : list (string * Appointment)) :=
  List.filter (λ apt, bool_decide (is_Some (feedback apt.2))) apps.

(** [apt.feedback!.rating] *)
Definition ratingOf (apt : string * Appointment) : Z :=
  match feedback apt.2 with
  | Some f => rating f
  | None => 0
  end.

(** [averageRating].  The quotient is exact here; the JS division rounds
    it to the nearest double. *)
Definition averageRating (apps : list (string * Appointment)) : Q :=
  let withFeedback := appointmentsWithFeedback apps in
  if (0 <? length withFeedback)%nat then
    Qdiv
      (inject_Z (fold_left (λ sum apt, sum + ratingOf apt) withFeedback 0))
      (inject_Z (Z.of_nat (length withFeedback)))
  else 0%Q.

(** The four statistics cards. *)
Definition pendingCount (apps : list (string * Appointment)) : nat :=
  length (pendingAppointments apps).
Definition activeCount (apps : list (string * Appointment)) : nat :=
  length (activeAppointments apps).
Definition completedCount (apps : list (string * Appointment)) : nat :=
  length (completedAppointments apps).

(** Which controls exist.  Accept and Decline are on every card of the
    pending list; Start and Add Prescription are on the cards of the
    active list, by status; the prescription form with its Complete and
    Cancel buttons is on the active card that is selected. *)
Definition acceptRendered (apps : list (string * Appointment)) (id : string) : bool :=
  rendered (pendingAppointments apps) id (λ _, true).

Definition startRendered (apps : list (string * Appointment)) (id : string) : bool :=
  rendered (activeAppointments apps) id
    (λ a, bool_decide (status a = confirmed)).

Definition addPrescriptionRendered (apps : list (string * Appointment))
    (id : string) : bool :=
  rendered (activeAppointments apps) id
    (λ a, bool_decide (status a = in_progress)).

Definition prescriptionFormRendered (st : State)
    (apps : list (string * Appointment)) (id : string) : bool :=
  rendered (activeAppointments apps) id
    (λ _, bool_decide (selectedAppointment st = Some id)).

(** No element of this dashboard reads [appointment.prescription]: the
    completed records are only counted. *)
Definition shownPrescription (apps : list (string * Appointment))
    (id : string) : option Prescription :=
  None.

End DoctorDashboard.

(** ** PatientDashboard *)

Module PatientDashboard.

(** [feedbackData]: the rating forms being filled in, by appointment id. *)
Record State : Type := mkState {
  feedbackData : gmap string Feedback
}.

Definition initialState : State := mkState ∅.

Inductive Notice : Type :=
  | FeedbackIgnored     (* the early [return]: nothing is reported *)
  | FeedbackStored      (* the document was updated, the form entry cleared *)
  | FeedbackFailed.     (* [console.error('Error submitting feedback:', ...)] *)

(** The live query [where('patientId', '==', userProfile.uid)]. *)
Definition appointments (db : gmap string Appointment) (uid : string)
    : list (string * Appointment) :=
  snapshot db (λ a, bool_decide (patientId a = uid)).

Definition handleFeedbackSubmit (db : gmap string Appointment)
    (st : State) (appointmentId : string)
    : Notice * gmap string Appointment * State :=
  match feedbackData st !! appointmentId with
  | None => (FeedbackIgnored, db, st)
  | Some feedback =>
      if rating feedback =? 0 then (FeedbackIgnored, db, st)
      else
        match updateDoc db appointmentId (mergeFeedback feedback) with
        | Some db' =>
            (FeedbackStored, db',
             mkState (delete appointmentId (feedbackData st)))
        | None => (FeedbackFailed, db, st)
        end
  end.

(** [updateFeedback] builds the new entry with an object literal,
    [{ ...prev[id], [field]: value, rating: prev[id]?.rating || 0,
       comment: prev[id]?.comment || '' }],
    whose properties are assigned from left to right. *)
Inductive Field : Type := ratingField | commentField.

Inductive Value : Type :=
  | Num (n : Z)
  | Str (s : string).

Record Literal : Type := mkLiteral {
  ratingProp : option Value;
  commentProp : option Value
}.

Definition spread (prev : option Feedback) : Literal :=
  match prev with
  | Some f => mkLiteral (Some (Num (rating f))) (Some (Str (comment f)))
  | None => mkLiteral None None
  end.

Definition assign (field : Field) (value : Value) (o : Literal) : Literal :=
  match field with
  | ratingField => mkLiteral (Some value) (commentProp o)
  | commentField => mkLiteral (ratingProp o) (Some value)
  end.

(** [prev?.rating || 0] and [prev?.comment || ''] *)
Definition ratingOrZero (prev : option Feedback) : Z :=
  match prev with
  | Some f => if rating f =? 0 then 0 else rating f
  | None => 0
  end.

Definition commentOrEmpty (prev : option Feedback) : string :=
  match prev with
  | Some f => if truthy (comment f) then comment f else EmptyString
  | None => EmptyString
  end.

(** The entry a finished literal denotes. *)
Definition entryOf (o : Literal) : Feedback :=
  mkFeedback
    (match ratingProp o with Some (Num n) => n | _ => 0 end)
    (match commentProp o with Some (Str s) => s | _ => EmptyString end).

Definition updateFeedback (st : State) (appointmentId : string)
    (field : Field) (value : Value) : State :=
  let prev := feedbackData st !! appointmentId in
  let literal :=
    assign commentField (Str (commentOrEmpty prev))
      (assign ratingField (Num (ratingOrZero prev))
        (assign field value (spread prev))) in
  mkState (<[appointmentId := entryOf literal]> (feedbackData st)).

Definition upcomingAppointments (apps : list (string * Appointment)) :=
  List.filter
    (λ apt, includes [pending; confirmed; in_progress] (status apt.2)) apps.

Definition pastAppointments (apps : list (string * Appointment)) :=
  List.filter (λ apt, includes [completed; cancelled] (status apt.2)) apps.

(** The three statistics cards: 'Upcoming Appointments', 'Prescriptions'
    and 'Completed Visits'. *)
Definition upcomingCard (apps : list (string * Appointment)) : nat :=
  length (upcomingAppointments apps).

Definition prescriptionsCard (apps : list (string * Appointment)) : nat :=
  length (List.filter (λ apt, bool_decide (is_Some (prescription apt.2))) apps).

Definition completedVisitsCard (apps : list (string * Appointment)) : nat :=
  length (pastAppointments apps).

(** The prescription box of a card of the past list:
    [appointment.prescription && appointment.status === 'completed']. *)
Definition prescriptionBox (a : Appointment) : option Prescription :=
  match prescription a with
  | Some p => if decide (status a = completed) then Some p else None
  | None => None
  end.

Definition shownPrescription (apps : list (string * Appointment))
    (id : string) : option Prescription :=
  match List.find (λ apt, String.eqb apt.1 id) (pastAppointments apps) with
  | Some apt => prescriptionBox apt.2
  | None => None
  end.

(** The rating form of a card of the past list:
    [appointment.status === 'completed' && !appointment.feedback]. *)
Definition feedbackFormRendered (apps : list (string * Appointment))
    (id : string) : bool :=
  rendered (pastAppointments apps) id
    (λ a, bool_decide (status a = completed)
          && negb (bool_decide (is_Some (feedback a)))).

(** The star buttons: [[1, 2, 3, 4, 5].map(...)]. *)
Definition stars : list Z := [1; 2; 3; 4; 5].

(** The Submit button is [disabled={!feedbackData[id]?.rating}]. *)
Definition submitDisabled (st : State) (id : string) : bool :=
  match feedbackData st !! id with
  | Some f => rating f =? 0
  | None => true
  end.

End PatientDashboard.

(** ** The prescription a requester is shown

    A signed-in user is routed to the dashboard of their role; each
    dashboard lists the documents of its own live query. *)
Definition viewPrescription (db : gmap string Appointment)
    (requester : UserProfile) (appointmentId : string) : option Prescription :=
  match role requester with
  | patient =>
      PatientDashboard.shownPrescription
        (PatientDashboard.appointments db (uid requester)) appointmentId
  | doctor =>
      DoctorDashboard.shownPrescription
        (DoctorDashboard.appointments db (uid requester)) appointmentId
  end.

(** ** The running application

    One store shared by all users, and for every user the state of the
    dashboard they have open (its initial state when they have not touched
    it).  A live query delivers the current documents, so each dashboard
    renders the store as it is. *)
Record World : Type := mkWorld {
  store : gmap string Appointment;
  doctorScreens : gmap string DoctorDashboard.State;
  patientScreens : gmap string PatientDashboard.State
}.

Definition initialWorld : World := mkWorld ∅ ∅ ∅.

Definition doctorScreen (w : World) (d : string) : DoctorDashboard.State :=
  default DoctorDashboard.initialState (doctorScreens w !! d).

Definition patientScreen (w : World) (p : string) : PatientDashboard.State :=
  default PatientDashboard.initialState (patientScreens w !! p).

Definition withStore (w : World) (db : gmap string Appointment) : World :=
  mkWorld db (doctorScreens w) (patientScreens w).

Definition withDoctorScreen (w : World) (db : gmap string Appointment)
    (d : string) (st : DoctorDashboard.State) : World :=
  mkWorld db (<[d := st]> (doctorScreens w)) (patientScreens w).

Definition withPatientScreen (w : World) (db : gmap string Appointment)
    (p : string) (st : PatientDashboard.State) : World :=
  mkWorld db (doctorScreens w) (<[p := st]> (patientScreens w)).

(** What a user can do: submit the booking form, or use a control of their
    dashboard.  [d] and [p] are the uid of the acting doctor or patient. *)
Inductive Event : Type :=
  | SubmitBooking (userProfile : UserProfile) (doctors : list UserProfile)
      (today : string) (form : BookAppointment.Form) (newId : string) (now : Z)
  | ClickAccept (d id : string)
  | ClickDecline (d id : string)
  | ClickStart (d id : string)
  | ClickAddPrescription (d id : string)
  | TypePrescription (d id : string) (data : Prescription)
  | ClickComplete (d id : string)
  | ClickCancel (d id : string)
  | ClickStar (p id : string) (star : Z)
  | TypeComment (p id : string) (text : string)
  | ClickSubmitFeedback (p id : string).

(** The world after an event; [None] when the control is not rendered or is
    disabled, so that the event cannot happen. *)
Definition step (w : World) (e : Event) : option World :=
  match e with
  | SubmitBooking userProfile doctors today form newId now =>
      if bool_decide (store w !! newId = None)
         && includes (BookAppointment.doctorOptions doctors)
              (BookAppointment.selectedDoctor form)
         && includes BookAppointment.timeOptions
              (BookAppointment.selectedTime form)
      then
        Some (withStore w
                (BookAppointment.handleSubmit (store w) userProfile doctors
                   today form newId now).2)
      else None
  | ClickAccept d id =>
      if DoctorDashboard.acceptRendered
           (DoctorDashboard.appointments (store w) d) id
      then Some (withStore w
                   (DoctorDashboard.updateAppointmentStatus (store w) id confirmed).2)
      else None
  | ClickDecline d id =>
      if DoctorDashboard.acceptRendered
           (DoctorDashboard.appointments (store w) d) id
      then Some (withStore w
                   (DoctorDashboard.updateAppointmentStatus (store w) id cancelled).2)
      else None
  | ClickStart d id =>
      if DoctorDashboard.startRendered
           (DoctorDashboard.appointments (store w) d) id
      then Some (withStore w
                   (DoctorDashboard.updateAppointmentStatus (store w) id in_progress).2)
      else None
  | ClickAddPrescription d id =>
      if DoctorDashboard.addPrescriptionRendered
           (DoctorDashboard.appointments (store w) d) id
      then Some (withDoctorScreen w (store w) d
                   (DoctorDashboard.mkState (Some id)
                      (DoctorDashboard.prescriptionData (doctorScreen w d))))
      else None
  | TypePrescription d id data =>
      if DoctorDashboard.prescriptionFormRendered (doctorScreen w d)
           (DoctorDashboard.appointments (store w) d) id
      then Some (withDoctorScreen w (store w) d
                   (DoctorDashboard.mkState
                      (DoctorDashboard.selectedAppointment (doctorScreen w d))
                      data))
      else None
  | ClickComplete d id =>
      if DoctorDashboard.prescriptionFormRendered (doctorScreen w d)
           (DoctorDashboard.appointments (store w) d) id
      then
        let '(_, db', st') :=
          DoctorDashboard.handlePrescriptionSubmit (store w) (doctorScreen w d) id in
        Some (withDoctorScreen w db' d st')
      else None
  | ClickCancel d id =>
      if DoctorDashboard.prescriptionFormRendered (doctorScreen w d)
           (DoctorDashboard.appointments (store w) d) id
      then Some (withDoctorScreen w (store w) d
                   (DoctorDashboard.mkState None
                      (DoctorDashboard.prescriptionData (doctorScreen w d))))
      else None
  | ClickStar p id star =>
      if PatientDashboard.feedbackFormRendered
           (PatientDashboard.appointments (store w) p) id
         && includes PatientDashboard.stars star
      then Some (withPatientScreen w (store w) p
                   (PatientDashboard.updateFeedback (patientScreen w p) id
                      PatientDashboard.ratingField (PatientDashboard.Num star)))
      else None
  | TypeComment p id text =>
      if PatientDashboard.feedbackFormRendered
           (PatientDashboard.appointments (store w) p) id
      then Some (withPatientScreen w (store w) p
                   (PatientDashboard.updateFeedback (patientScreen w p) id
                      PatientDashboard.commentField (PatientDashboard.Str text)))
      else None
  | ClickSubmitFeedback p id =>
      if PatientDashboard.feedbackFormRendered
           (PatientDashboard.appointments (store w) p) id
         && negb (PatientDashboard.submitDisabled (patientScreen w p) id)
      then
        let '(_, db', st') :=
          PatientDashboard.handleFeedbackSubmit (store w) (patientScreen w p) id in
        Some (withPatientScreen w db' p st')
      else None
  end.

(** A sequence of events, each possible when it happens. *)
Fixpoint run (w : World) (es : list Event) : option World :=
  match es with
  | [] => Some w
  | e :: rest =>
      match step w e with
      | Some w' => run w' rest
      | None => None
      end
  end.

(** ** The lifecycle the workflow is meant to follow *)

(** The four edges: accept, decline, start, complete. *)
Inductive edge : Status → Status → Prop :=
  | edge_accept : edge pending confirmed
  | edge_decline : edge pending cancelled
  | edge_start : edge confirmed in_progress
  | edge_complete : edge in_progress completed.

(** Every open prescription form belongs to a record that is in progress
    (or was just completed from that form's screen). *)
Definition selectionsInProgress (w : World) : Prop :=
  ∀ d st id,
    doctorScreens w !! d = Some st →
    DoctorDashboard.selectedAppointment st = Some id →
    ∃ a, store w !! id = Some a ∧ (status a = in_progress ∨ status a = completed).

(** I2: a prescription is present exactly on the completed records. *)
Definition prescribedIffCompleted (db : gmap string Appointment) : Prop :=
  ∀ id a, db !! id = Some a → (is_Some (prescription a) ↔ status a = completed).

(** I3 and I4: feedback sits on completed records only, with a rating from
    1 to 5. *)
Definition feedbackOnCompleted (db : gmap string Appointment) : Prop :=
  ∀ id a, db !! id = Some a → is_Some (feedback a) → status a = completed.

Definition ratingsInRange (db : gmap string Appointment) : Prop :=
  ∀ id a f, db !! id = Some a → feedback a = Some f → 1 ≤ rating f ≤ 5.

(** The rating forms hold 0 (no star chosen yet) or a star value. *)
Definition draftsInRange (w : World) : Prop :=
  ∀ p st id f,
    patientScreens w !! p = Some st →
    PatientDashboard.feedbackData st !! id = Some f →
    0 ≤ rating f ≤ 5.

(** ** The booking contract as the specification words it

    Used only to compare [BookAppointment.handleSubmit] with it. *)
Module Contract.

Inductive BookingError : Type :=
  | UnknownDoctor
  | PastDate
  | InvalidSlot
  | DailyLimitExceeded.

(** Existing records with [patientId == caller] and
    [date == requested date], in any status. *)
Definition sameDayCount (db : gmap string Appointment)
    (caller requestedDate : string) : nat :=
  length (snapshot db (λ a,
    bool_decide (patientId a = caller) && bool_decide (date a = requestedDate))).

(** The four preconditions in the order of the contract, first failure
    winning; [None] when the request is admitted. *)
Definition book (db : gmap string Appointment) (knownDoctors : list string)
    (today caller doctorId requestedDate requestedTime : string)
    : option BookingError :=
  if negb (includes knownDoctors doctorId) then Some UnknownDoctor
  else if String.ltb requestedDate today then Some PastDate
  else if negb (includes BookAppointment.timeSlots requestedTime) then
    Some InvalidSlot
  else if (2 <=? sameDayCount db caller requestedDate)%nat then
    Some DailyLimitExceeded
  else None.

(** The handler's outcome is the one the contract asks for. *)
Definition agrees (o : BookAppointment.Outcome) (r : option BookingError)
    : bool :=
  match o, r with
  | BookAppointment.Booked, None => true
  | BookAppointment.DailyLimitExceeded, Some DailyLimitExceeded => true
  | BookAppointment.PastDate, Some PastDate => true
  | BookAppointment.BookingFailed, Some UnknownDoctor => true
  | _, _ => false
  end.

End Contract.

(** Counting as the specification words it: the number of elements that
    satisfy a condition, and the sum of a list of ratings. *)
Fixpoint countWhere {A : Type} (cond : A → bool) (l : list A) : nat :=
  match l with
  | [] => 0%nat
  | x :: rest => ((if cond x then 1 else 0) + countWhere cond rest)%nat
  end.

Definition ratingsPresent (apps : list (string * Appointment)) : list Z :=
  omap (λ apt, rating <$> feedback apt.2) apps.

Fixpoint sumRatings (l : list Z) : Z :=
  match l with
  | [] => 0
  | r :: rest => r + sumRatings rest
  end.

(** ** What one event can do to the world

    Every event that can happen is of one of these kinds.  [step_transition]
    below shows it, and the invariants are proved on the kinds. *)
Inductive transition (w : World) : World → Prop :=
  | t_nothing : transition w w
  | t_booked newId a :
      store w !! newId = None →
      status a = pending → prescription a = None → feedback a = None →
      transition w (withStore w (<[newId := a]> (store w)))
  | t_status id a s :
      store w !! id = Some a →
      edge (status a) s → s ≠ completed →
      transition w (withStore w (<[id := mergeStatus s a]> (store w)))
  | t_doctor_screen d st :
      (∀ id, DoctorDashboard.selectedAppointment st = Some id →
         DoctorDashboard.selectedAppointment (doctorScreen w d) = Some id
         ∨ ∃ a, store w !! id = Some a ∧ status a = in_progress) →
      transition w (withDoctorScreen w (store w) d st)
  | t_completed d id a :
      store w !! id = Some a →
      status a = confirmed ∨ status a = in_progress →
      DoctorDashboard.selectedAppointment (doctorScreen w d) = Some id →
      transition w
        (withDoctorScreen w
           (<[id := mergeCompleted
                      (DoctorDashboard.prescriptionData (doctorScreen w d)) a]>
              (store w))
           d DoctorDashboard.initialState)
  | t_patient_screen p st :
      (∀ id f, PatientDashboard.feedbackData st !! id = Some f →
         (∃ f0, PatientDashboard.feedbackData (patientScreen w p) !! id = Some f0
                ∧ rating f = rating f0)
         ∨ 0 ≤ rating f ≤ 5) →
      transition w (withPatientScreen w (store w) p st)
  | t_feedback p id a f :
      store w !! id = Some a →
      patientId a = p → status a = completed → feedback a = None →
      PatientDashboard.feedbackData (patientScreen w p) !! id = Some f →
      rating f ≠ 0 →
      transition w
        (withPatientScreen w (<[id := mergeFeedback f a]> (store w)) p
           (PatientDashboard.mkState
              (delete id (PatientDashboard.feedbackData (patientScreen w p))))).

(** The mean as the specification words it: the arithmetic mean of the
    ratings, and 0 when there is none. *)
Definition arithmeticMean (ratings : list Z) : Q :=
  match ratings with
  | [] => 0%Q
  | _ :: _ =>
      Qdiv (inject_Z (sumRatings ratings))
           (inject_Z (Z.of_nat (length ratings)))
  end.

(** ** Sample data: one doctor, two patients, a few records *)
Module Sample.

Definition drGrey : UserProfile :=
  mkUserProfile "d1" "grey@meditrack.local" doctor "Meredith" "Grey" 1000.

Definition alice : UserProfile :=
  mkUserProfile "p1" "alice@meditrack.local" patient "Alice" "Moore" 1001.

Definition bob : UserProfile :=
  mkUserProfile "p2" "bob@meditrack.local" patient "Bob" "Stone" 1002.

Definition amoxicillin : Prescription :=
  mkPrescription "Amoxicillin" "500mg" "Twice daily" "After meals".

(** A record of Alice with Dr Grey. *)
Definition visit (day slot : string) (s : Status)
    (rx : option Prescription) (fb : option Feedback) : Appointment :=
  mkAppointment "d1" "Meredith Grey" "p1" "Alice Moore" day slot s
    EmptyString rx fb 2000.

(** Alice already has two records for 2 June; today is 1 June. *)
Definition twoOnSecondOfJune : gmap string Appointment :=
  <["a1" := visit "2025-06-02" "09:00" pending None None]>
    (<["a2" := visit "2025-06-02" "09:30" cancelled None None]> ∅).

(** Alice already has two records for today, 1 June. *)
Definition twoOnFirstOfJune : gmap string Appointment :=
  <["a1" := visit "2025-06-01" "09:00" pending None None]>
    (<["a2" := visit "2025-06-01" "09:30" confirmed None None]> ∅).

Definition oneOnFirstOfJune : gmap string Appointment :=
  <["a1" := visit "2025-06-01" "09:00" pending None None]> ∅.

Definition request (day slot : string) : BookAppointment.Form :=
  BookAppointment.mkForm "d1" day slot " sore throat ".

Definition completedVisit : Appointment :=
  visit "2025-06-01" "09:00" completed (Some amoxicillin) None.

Definition ratedVisit : Appointment :=
  visit "2025-06-01" "09:00" completed (Some amoxicillin)
    (Some (mkFeedback 5 "Very kind")).

Definition pendingVisit : Appointment :=
  visit "2025-06-01" "09:00" pending None None.

Definition cancelledVisit : Appointment :=
  visit "2025-06-01" "09:00" cancelled None None.

Definition ibuprofen : Prescription :=
  mkPrescription "Ibuprofen" "200mg" "Once daily" EmptyString.

Definition onlyCompleted : gmap string Appointment := <["a1" := completedVisit]> ∅.
Definition onlyCancelled : gmap string Appointment := <["a1" := cancelledVisit]> ∅.
Definition onlyRated : gmap string Appointment := <["a1" := ratedVisit]> ∅.
Definition onlyPending : gmap string Appointment := <["a1" := pendingVisit]> ∅.

(** Dr Grey's form holds a prescription. *)
Definition greyPrescribing : DoctorDashboard.State :=
  DoctorDashboard.mkState (Some "a1") amoxicillin.

(** Dr Grey's form, still open on "a1", holds another prescription. *)
Definition greyPrescribingAgain : DoctorDashboard.State :=
  DoctorDashboard.mkState (Some "a1") ibuprofen.

(** Alice's rating form for "a1" holds the given entry. *)
Definition aliceRating (stars : Z) (text : string) : PatientDashboard.State :=
  PatientDashboard.mkState (<["a1" := mkFeedback stars text]> ∅).

(** A pending request, and the clicks that take it to completion. *)
Definition waitingRoom : World := mkWorld onlyPending ∅ ∅.

Definition consultation : list Event :=
  [ ClickAccept "d1" "a1"; ClickStart "d1" "a1";
    ClickAddPrescription "d1" "a1";
    TypePrescription "d1" "a1" amoxicillin;
    ClickComplete "d1" "a1" ].

Definition afterConsultation : World :=
  default initialWorld (run waitingRoom consultation).

(** Dr Grey about to complete "a1", which is in progress. *)
Definition prescribing : World :=
  mkWorld (<["a1" := visit "2025-06-01" "09:00" in_progress None None]> ∅)
    (<["d1" := greyPrescribing]> ∅) ∅.

Definition afterPrescribing : World :=
  default initialWorld (step prescribing (ClickComplete "d1" "a1")).

(** Alice about to submit four stars for the completed "a1". *)
Definition rating4 : World :=
  mkWorld onlyCompleted ∅ (<["p1" := aliceRating 4 "Good"]> ∅).

Definition afterRating4 : World :=
  default initialWorld (step rating4 (ClickSubmitFeedback "p1" "a1")).

(** Two rated visits with 5 and 3 stars, as the dashboard lists them. *)
Definition fiveAndThree : list (string * Appointment) :=
  [ ("a1", visit "2025-06-01" "09:00" completed (Some amoxicillin)
             (Some (mkFeedback 5 EmptyString)));
    ("a2", visit "2025-06-02" "09:00" completed (Some amoxicillin)
             (Some (mkFeedback 3 EmptyString))) ].

(** Registration of Dr Grey and Alice, then Alice signs out and in. *)
Definition signUps : list AuthContext.Call :=
  [ AuthContext.Register "grey@meditrack.local" "secret1" "Meredith" "Grey"
      doctor "d1" 1000;
    AuthContext.Logout;
    AuthContext.Register "alice@meditrack.local" "secret2" "Alice" "Moore"
      patient "p1" 1001;
    AuthContext.Logout;
    AuthContext.Register "mallory@example.com" "secret3" "Mallory" "Roe"
      doctor "p9" 1002;
    AuthContext.Login "alice@meditrack.local" "secret2" ].

End Sample.

(** Every stored profile, and the profile of the signed-in user, carries
    an address of the clinic's domain. *)
Definition clinicProfilesOnly (st : AuthContext.State) : Prop :=
  (∀ u p, AuthContext.users st !! u = Some p →
          AuthContext.validateEmail (email p) = true)
  ∧ (∀ p, AuthContext.userProfile st = Some p →
          AuthContext.validateEmail (email p) = true).

(** ** ProtectedRoute and Navbar.tsx *)

(** What [ProtectedRoute] returns: its children, or a [<Navigate to=... />]. *)
Inductive Rendering : Type :=
  | Children
  | Navigate (to : string).

(** [ProtectedRoute], on the [currentUser] and [userProfile] it reads from
    [useAuth()].  [userProfile?.role] of a missing profile is [undefined],
    which is different from every required role and is not 'doctor'. *)
Definition ProtectedRoute (currentUser : option string)
    (userProfile : option UserProfile) (requiredRole : option Role) : Rendering :=
  match currentUser with
  | None => Navigate "/login"
  | Some _ =>
      match requiredRole with
      | Some required =>
          if bool_decide (role <$> userProfile ≠ Some required) then
            Navigate (if bool_decide (role <$> userProfile = Some doctor)
                      then "/doctor-dashboard" else "/patient-dashboard")
          else Children
      | None => Children
      end
  end.

Module Navbar.

(** The target of the logo link. *)
Definition homeLink (userProfile : option UserProfile) : string :=
  if bool_decide (role <$> userProfile = Some doctor)
  then "/doctor-dashboard" else "/patient-dashboard".

(** The targets of the menu links: two for a patient, one otherwise. *)
Definition menuLinks (userProfile : option UserProfile) : list string :=
  if bool_decide (role <$> userProfile = Some patient)
  then ["/patient-dashboard"; "/book-appointment"]
  else ["/doctor-dashboard"].

(** The bar is not rendered ([return null]) when nobody is signed in. *)
Definition render (currentUser : option string)
    (userProfile : option UserProfile) : option (string * list string) :=
  match currentUser with
  | None => None
  | Some _ => Some (homeLink userProfile, menuLinks userProfile)
  end.

(** [handleLogout]: the state after [logout()] and the path navigated to. *)
Definition handleLogout (st : AuthContext.State) : AuthContext.State * string :=
  ((AuthContext.logout st).2, "/login").

End Navbar.

(** The session and the stores fit together: a profile document is stored
    under its own uid, every account has a profile document, and the
    profile in the session is that of the signed-in user. *)
Definition sessionConsistent (st : AuthContext.State) : Prop :=
  (∀ u p, AuthContext.users st !! u = Some p → uid p = u)
  ∧ (∀ e acc, AuthContext.accounts st !! e = Some acc →
              is_Some (AuthContext.users st !! AuthContext.accountUid acc))
  ∧ AuthContext.currentUser st = uid <$> AuthContext.userProfile st.

(** ** Further notions on records, forms and events *)

(** Every character of the string is white space. *)
Fixpoint allWhiteSpace (s : string) : bool :=
  match s with
  | EmptyString => true
  | String c r => isWhiteSpace c && allWhiteSpace r
  end.

(** The first and the last character of a string. *)
Definition firstChar (s : string) : option Ascii.ascii :=
  match s with
  | EmptyString => None
  | String c _ => Some c
  end.

Definition lastChar (s : string) : option Ascii.ascii :=
  firstChar (String.rev s).

(** [a'] is the record [a] up to status, prescription and feedback. *)
Definition sameVisit (a a' : Appointment) : Prop :=
  doctorId a' = doctorId a ∧ doctorName a' = doctorName a
  ∧ patientId a' = patientId a ∧ patientName a' = patientName a
  ∧ date a' = date a ∧ time a' = time a
  ∧ note a' = note a ∧ createdAt a' = createdAt a.

(** No rating form holds a chosen star. *)
Definition draftsAllZero (w : World) : Prop :=
  ∀ p st id f,
    patientScreens w !! p = Some st →
    PatientDashboard.feedbackData st !! id = Some f →
    rating f = 0.

(** The record is one of the acting user's own: the doctor's for an event
    of the doctor's dashboard, the patient's for one of the patient's. *)
Definition ownRecord (e : Event) (a : Appointment) : Prop :=
  match e with
  | SubmitBooking _ _ _ _ _ _ => False
  | ClickAccept d _ | ClickDecline d _ | ClickStart d _
  | ClickAddPrescription d _ | TypePrescription d _ _
  | ClickComplete d _ | ClickCancel d _ => doctorId a = d
  | ClickStar p _ _ | TypeComment p _ _ | ClickSubmitFeedback p _ =>
      patientId a = p
  end.

(** The number of cancelled records of a dashboard's array. *)
Definition cancelledCount (apps : list (string * Appointment)) : nat :=
  countWhere (λ apt, bool_decide (status apt.2 = cancelled)) apps.

(** From [w] to [w'] no record was removed and no feedback was written:
    an old record has the feedback it had, a new record has none. *)
Definition feedbackUntouched (w w' : World) : Prop :=
  ∀ id,
    match store w !! id, store w' !! id with
    | Some a, Some a' => feedback a' = feedback a
    | None, Some a' => feedback a' = None
    | Some _, None => False
    | None, None => True
    end.

(** After the consultation of the sample Alice clicks the fifth star and
    types a comment. *)
Module Scenario.

Definition fillingIn : list Event :=
  [ ClickStar "p1" "a1" 5; TypeComment "p1" "a1" "Very kind" ].

Definition afterFillingIn : World :=
  default initialWorld (run Sample.afterConsultation fillingIn).

End Scenario.

(** The event is no booking, or a booking submitted on the day [day]. *)
Definition submittedOn (day : string) (e : Event) : Prop :=
  match e with
  | SubmitBooking _ _ today _ _ _ => today = day
  | _ => True
  end.

Global Instance Prescription_eq_dec : EqDecision Prescription.
Proof. solve_decision. Defined.

Global Instance BookingOutcome_eq_dec : EqDecision BookAppointment.Outcome.
Proof. solve_decision. Defined.

(** The clinic of the sample as 'users' documents, and Alice at the booking
    form with one record for today. *)
Module Clinic.

Definition users : gmap string UserProfile :=
  <["d1" := Sample.drGrey]> (<["p1" := Sample.alice]> ∅).

Definition atTheForm : World := mkWorld Sample.oneOnFirstOfJune ∅ ∅.

Definition secondBooking : Event :=
  SubmitBooking Sample.alice (BookAppointment.fetchDoctors users) "2025-06-01"
    (Sample.request "2025-06-01" "10:00") "a2" 3000.

Definition thirdBooking : Event :=
  SubmitBooking Sample.alice (BookAppointment.fetchDoctors users) "2025-06-01"
    (Sample.request "2025-06-01" "10:30") "a3" 3001.

Definition afterSecondBooking : World :=
  default initialWorld (step atTheForm secondBooking).

Definition busyDay : list Event :=
  [ secondBooking; thirdBooking; ClickAccept "d1" "a1" ].

Definition afterBusyDay : World := default initialWorld (run atTheForm busyDay).

End Clinic.

(** * Properties *)

(** ** Strings *)

Lemma substring_all (t : string) : String.substring 0 (String.length t) t = t.
Proof. induction t as [|c t IH]; simpl; [done | by rewrite IH]. Qed.

Lemma substring_skip_prefix (p t : string) :
  String.substring (String.length p) (String.length t) (p +:+ t) = t.
Proof. induction p as [|c p IH]; simpl; [apply substring_all | exact IH]. Qed.

Lemma length_append (p t : string) :
  String.length (p +:+ t) = (String.length p + String.length t)%nat.
Proof. induction p as [|c p IH]; simpl; [done | by rewrite IH]. Qed.

Lemma substring_split (s : string) (n : nat) :
  (n ≤ String.length s)%nat →
  s = String.substring 0 n s +:+ String.substring n (String.length s - n) s.
Proof.
  revert n. induction s as [|c s IH]; intros [|n] Hn; simpl in *.
  - done.
  - lia.
  - by rewrite substring_all.
  - transitivity
      (String c (String.substring 0 n s
                 +:+ String.substring n (String.length s - n) s));
      [f_equal; apply IH; lia | reflexivity].
Qed.

(** [endsWith] is "has this suffix". *)
Lemma endsWith_suffix (s t : string) :
  endsWith s t = true ↔ ∃ p, s = p +:+ t.
Proof.
  unfold endsWith. split.
  - destruct (Nat.leb_spec (String.length t) (String.length s)) as [Hle|]; [|done].
    intros Heq%String.eqb_eq.
    exists (String.substring 0 (String.length s - String.length t) s).
    pose proof (substring_split s (String.length s - String.length t)) as Hs.
    replace (String.length s - (String.length s - String.length t))%nat
      with (String.length t) in Hs by lia.
    rewrite Heq in Hs. apply Hs. lia.
  - intros [p ->]. rewrite length_append.
    destruct (Nat.leb_spec (String.length t) (String.length p + String.length t))
      as [_|]; [|lia].
    replace (String.length p + String.length t - String.length t)%nat
      with (String.length p) by lia.
    rewrite substring_skip_prefix. apply String.eqb_refl.
Qed.

Lemma truthy_false (s : string) : truthy s = false ↔ s = EmptyString.
Proof. by destruct s. Qed.

Lemma trim_empty : trim EmptyString = EmptyString.
Proof. reflexivity. Qed.

(** ** Live queries and rendered controls *)

Lemma elem_of_snapshot {A : Type} (coll : gmap string A) (where_ : A → bool)
    (id : string) (d : A) :
  (id, d) ∈ snapshot coll where_ ↔ coll !! id = Some d ∧ where_ d = true.
Proof.
  unfold snapshot. rewrite list_elem_of_In, filter_In, <- list_elem_of_In.
  by rewrite elem_of_map_to_list.
Qed.

Lemma rendered_true (cards : list (string * Appointment)) (id : string)
    (cond : Appointment → bool) :
  rendered cards id cond = true ↔ ∃ a, (id, a) ∈ cards ∧ cond a = true.
Proof.
  unfold rendered. rewrite existsb_exists. split.
  - intros [[i a] [Hin [Hid%String.eqb_eq Hc]%andb_prop]]. simpl in *. subst i.
    exists a. by rewrite list_elem_of_In.
  - intros (a & Hin%list_elem_of_In & Hc). exists (id, a). simpl.
    by rewrite String.eqb_refl, Hc.
Qed.

Lemma includes_true {A : Type} `{EqDecision A} (l : list A) (x : A) :
  includes l x = true ↔ x ∈ l.
Proof. unfold includes. by rewrite bool_decide_eq_true. Qed.

Lemma elem_of_filter_bool {A : Type} (f : A → bool) (l : list A) (x : A) :
  x ∈ List.filter f l ↔ x ∈ l ∧ f x = true.
Proof. by rewrite !list_elem_of_In, filter_In. Qed.

Lemma acceptRendered_true (db : gmap string Appointment) (d id : string) :
  DoctorDashboard.acceptRendered (DoctorDashboard.appointments db d) id = true ↔
  ∃ a, db !! id = Some a ∧ doctorId a = d ∧ status a = pending.
Proof.
  unfold DoctorDashboard.acceptRendered, DoctorDashboard.pendingAppointments,
    DoctorDashboard.appointments.
  rewrite rendered_true. split.
  - intros (a & Hin & _). apply elem_of_filter_bool in Hin as [Hin Hs].
    apply elem_of_snapshot in Hin as [Hl Hd]. simpl in Hs.
    apply bool_decide_eq_true in Hs, Hd. eauto.
  - intros (a & Hl & Hd & Hs). exists a. split; [|done].
    apply elem_of_filter_bool. split.
    + apply elem_of_snapshot. by rewrite bool_decide_eq_true.
    + simpl. by rewrite bool_decide_eq_true.
Qed.

Lemma active_card (db : gmap string Appointment) (d id : string)
    (cond : Appointment → bool) :
  rendered (DoctorDashboard.activeAppointments (DoctorDashboard.appointments db d))
    id cond = true ↔
  ∃ a, db !! id = Some a ∧ doctorId a = d
       ∧ (status a = confirmed ∨ status a = in_progress) ∧ cond a = true.
Proof.
  unfold DoctorDashboard.activeAppointments, DoctorDashboard.appointments.
  rewrite rendered_true. split.
  - intros (a & Hin & Hc). apply elem_of_filter_bool in Hin as [Hin Hs].
    apply elem_of_snapshot in Hin as [Hl Hd]. simpl in Hs.
    apply includes_true in Hs. apply bool_decide_eq_true in Hd.
    exists a. repeat split; try done.
    rewrite !elem_of_cons, elem_of_nil in Hs. tauto.
  - intros (a & Hl & Hd & Hs & Hc). exists a. split; [|done].
    apply elem_of_filter_bool. split.
    + apply elem_of_snapshot. by rewrite bool_decide_eq_true.
    + simpl. apply includes_true. rewrite !elem_of_cons. tauto.
Qed.

Lemma startRendered_true (db : gmap string Appointment) (d id : string) :
  DoctorDashboard.startRendered (DoctorDashboard.appointments db d) id = true ↔
  ∃ a, db !! id = Some a ∧ doctorId a = d ∧ status a = confirmed.
Proof.
  unfold DoctorDashboard.startRendered. rewrite active_card. split.
  - intros (a & ? & ? & _ & Hs%bool_decide_eq_true). eauto.
  - intros (a & ? & ? & Hs). exists a. rewrite bool_decide_eq_true. eauto 6.
Qed.

Lemma addPrescriptionRendered_true (db : gmap string Appointment) (d id : string) :
  DoctorDashboard.addPrescriptionRendered (DoctorDashboard.appointments db d) id
    = true ↔
  ∃ a, db !! id = Some a ∧ doctorId a = d ∧ status a = in_progress.
Proof.
  unfold DoctorDashboard.addPrescriptionRendered. rewrite active_card. split.
  - intros (a & ? & ? & _ & Hs%bool_decide_eq_true). eauto.
  - intros (a & ? & ? & Hs). exists a. rewrite bool_decide_eq_true. eauto 6.
Qed.

Lemma prescriptionFormRendered_true (st : DoctorDashboard.State)
    (db : gmap string Appointment) (d id : string) :
  DoctorDashboard.prescriptionFormRendered st
    (DoctorDashboard.appointments db d) id = true ↔
  ∃ a, db !! id = Some a ∧ doctorId a = d
       ∧ (status a = confirmed ∨ status a = in_progress)
       ∧ DoctorDashboard.selectedAppointment st = Some id.
Proof.
  unfold DoctorDashboard.prescriptionFormRendered. rewrite active_card.
  by setoid_rewrite bool_decide_eq_true.
Qed.

Lemma feedbackFormRendered_true (db : gmap string Appointment) (p id : string) :
  PatientDashboard.feedbackFormRendered (PatientDashboard.appointments db p) id
    = true ↔
  ∃ a, db !! id = Some a ∧ patientId a = p ∧ status a = completed
       ∧ feedback a = None.
Proof.
  unfold PatientDashboard.feedbackFormRendered, PatientDashboard.pastAppointments,
    PatientDashboard.appointments.
  rewrite rendered_true. split.
  - intros (a & Hin & [Hs Hf]%andb_prop). apply elem_of_filter_bool in Hin as [Hin _].
    apply elem_of_snapshot in Hin as [Hl Hp].
    apply bool_decide_eq_true in Hs, Hp. apply negb_true_iff in Hf.
    apply bool_decide_eq_false in Hf. exists a. repeat split; try done.
    destruct (feedback a); [|done]. by destruct Hf.
  - intros (a & Hl & Hp & Hs & Hf). exists a. split.
    + apply elem_of_filter_bool. split.
      * apply elem_of_snapshot. by rewrite bool_decide_eq_true.
      * simpl. apply includes_true. rewrite Hs, !elem_of_cons. tauto.
    + rewrite Hf, Hs. apply andb_true_intro. split.
      * by apply bool_decide_eq_true.
      * apply negb_true_iff, bool_decide_eq_false. by intros [? ?].
Qed.

(** ** The handlers, case by case *)

Lemma withStore_same (w : World) : withStore w (store w) = w.
Proof. by destruct w. Qed.

Lemma updateDoc_Some {A : Type} (coll : gmap string A) (id : string)
    (merge : A → A) (d : A) :
  coll !! id = Some d → updateDoc coll id merge = Some (<[id := merge d]> coll).
Proof. unfold updateDoc. by intros ->. Qed.

(** [updateAppointmentStatus] writes the new status on whatever record it
    is given; the status the record has plays no part. *)
Lemma updateAppointmentStatus_writes (db : gmap string Appointment)
    (id : string) (a : Appointment) (newStatus : Status) :
  db !! id = Some a →
  (DoctorDashboard.updateAppointmentStatus db id newStatus).2
  = <[id := mergeStatus newStatus a]> db.
Proof.
  intros Hl. unfold DoctorDashboard.updateAppointmentStatus.
  by rewrite (updateDoc_Some _ _ _ _ Hl).
Qed.

Lemma handlePrescriptionSubmit_blank (db : gmap string Appointment)
    (st : DoctorDashboard.State) (id : string) :
  truthy (trim (medicine (DoctorDashboard.prescriptionData st))) = false →
  DoctorDashboard.handlePrescriptionSubmit db st id
  = (DoctorDashboard.MedicineMissing, db, st).
Proof. unfold DoctorDashboard.handlePrescriptionSubmit. by intros ->. Qed.

Lemma handlePrescriptionSubmit_writes (db : gmap string Appointment)
    (st : DoctorDashboard.State) (id : string) (a : Appointment) :
  truthy (trim (medicine (DoctorDashboard.prescriptionData st))) = true →
  db !! id = Some a →
  DoctorDashboard.handlePrescriptionSubmit db st id
  = (DoctorDashboard.PrescriptionAdded,
     <[id := mergeCompleted (DoctorDashboard.prescriptionData st) a]> db,
     DoctorDashboard.initialState).
Proof.
  intros Hm Hl. unfold DoctorDashboard.handlePrescriptionSubmit.
  by rewrite Hm, (updateDoc_Some _ _ _ _ Hl).
Qed.

Lemma handleFeedbackSubmit_writes (db : gmap string Appointment)
    (st : PatientDashboard.State) (id : string) (a : Appointment) (f : Feedback) :
  PatientDashboard.feedbackData st !! id = Some f →
  rating f ≠ 0 →
  db !! id = Some a →
  PatientDashboard.handleFeedbackSubmit db st id
  = (PatientDashboard.FeedbackStored, <[id := mergeFeedback f a]> db,
     PatientDashboard.mkState (delete id (PatientDashboard.feedbackData st))).
Proof.
  intros Hf Hr Hl. unfold PatientDashboard.handleFeedbackSubmit.
  rewrite Hf. destruct (Z.eqb_spec (rating f) 0) as [|_]; [done|].
  by rewrite (updateDoc_Some _ _ _ _ Hl).
Qed.

Lemma handleFeedbackSubmit_no_entry (db : gmap string Appointment)
    (st : PatientDashboard.State) (id : string) :
  PatientDashboard.feedbackData st !! id = None →
  PatientDashboard.handleFeedbackSubmit db st id
  = (PatientDashboard.FeedbackIgnored, db, st).
Proof. unfold PatientDashboard.handleFeedbackSubmit. by intros ->. Qed.

Lemma handleFeedbackSubmit_zero (db : gmap string Appointment)
    (st : PatientDashboard.State) (id : string) (f : Feedback) :
  PatientDashboard.feedbackData st !! id = Some f →
  rating f = 0 →
  PatientDashboard.handleFeedbackSubmit db st id
  = (PatientDashboard.FeedbackIgnored, db, st).
Proof. unfold PatientDashboard.handleFeedbackSubmit. by intros -> ->. Qed.

(** The entry [updateFeedback] stores keeps the rating and the comment the
    form had (0 and the empty text when it had none): the two properties
    written last in the literal replace the one written from [value]. *)
Lemma updateFeedback_entry (st : PatientDashboard.State) (id : string)
    (field : PatientDashboard.Field) (value : PatientDashboard.Value) :
  PatientDashboard.feedbackData (PatientDashboard.updateFeedback st id field value)
    !! id
  = Some (mkFeedback
            (PatientDashboard.ratingOrZero (PatientDashboard.feedbackData st !! id))
            (PatientDashboard.commentOrEmpty (PatientDashboard.feedbackData st !! id))).
Proof.
  unfold PatientDashboard.updateFeedback. simpl. rewrite lookup_insert_eq.
  by destruct field.
Qed.

Lemma updateFeedback_other (st : PatientDashboard.State) (id id' : string)
    (field : PatientDashboard.Field) (value : PatientDashboard.Value) :
  id ≠ id' →
  PatientDashboard.feedbackData (PatientDashboard.updateFeedback st id field value)
    !! id'
  = PatientDashboard.feedbackData st !! id'.
Proof. intros Hne. unfold PatientDashboard.updateFeedback. simpl. by rewrite lookup_insert_ne. Qed.

Lemma updateFeedback_rating (st : PatientDashboard.State) (id id' : string)
    (field : PatientDashboard.Field) (value : PatientDashboard.Value) (f : Feedback) :
  PatientDashboard.feedbackData (PatientDashboard.updateFeedback st id field value)
    !! id' = Some f →
  (∃ f0, PatientDashboard.feedbackData st !! id' = Some f0 ∧ rating f = rating f0)
  ∨ 0 ≤ rating f ≤ 5.
Proof.
  destruct (decide (id = id')) as [<-|Hne].
  - rewrite updateFeedback_entry. intros [= <-]. simpl.
    destruct (PatientDashboard.feedbackData st !! id) as [f0|]; simpl.
    + left. exists f0. split; [done|].
      by destruct (Z.eqb_spec (rating f0) 0).
    + right. lia.
  - rewrite updateFeedback_other by done. eauto.
Qed.

(** The booking handler either leaves the store alone or adds one pending
    record without prescription or feedback. *)
Lemma handleSubmit_store (db : gmap string Appointment)
    (userProfile : UserProfile) (doctors : list UserProfile) (today : string)
    (form : BookAppointment.Form) (newId : string) (now : Z) :
  let result :=
    BookAppointment.handleSubmit db userProfile doctors today form newId now in
  (result.1 ≠ BookAppointment.Booked ∧ result.2 = db)
  ∨ (result.1 = BookAppointment.Booked
     ∧ ∃ a, result.2 = <[newId := a]> db ∧ status a = pending
            ∧ prescription a = None ∧ feedback a = None
            ∧ patientId a = uid userProfile
            ∧ date a = BookAppointment.selectedDate form).
Proof.
  unfold BookAppointment.handleSubmit. cbv zeta.
  destruct (Nat.leb 2 _); [by left|].
  destruct (_ || _); [by left|].
  destruct (String.ltb _ _); [by left|].
  destruct (List.find _ _); [|by left].
  right. split; [done|]. eexists. split; [reflexivity|]. done.
Qed.

(** Every event that can happen is a [transition]. *)
Lemma step_transition (w w' : World) (e : Event) :
  step w e = Some w' → transition w w'.
Proof.
  destruct e; simpl.
  - (* SubmitBooking *)
    case_match eqn:Hg; [|done]. intros [= <-].
    apply andb_prop in Hg as [[Hfresh%bool_decide_eq_true _]%andb_prop _].
    destruct (handleSubmit_store (store w) userProfile doctors today form newId now)
      as [[_ ->]|[_ (a & -> & ? & ? & ? & _)]].
    + rewrite withStore_same. constructor.
    + by constructor.
  - (* ClickAccept *)
    case_match eqn:Hg; [|done]. intros [= <-].
    apply acceptRendered_true in Hg as (a & Hl & _ & Hs).
    rewrite (updateAppointmentStatus_writes _ _ _ _ Hl).
    apply t_status; [done| rewrite Hs; constructor | done].
  - (* ClickDecline *)
    case_match eqn:Hg; [|done]. intros [= <-].
    apply acceptRendered_true in Hg as (a & Hl & _ & Hs).
    rewrite (updateAppointmentStatus_writes _ _ _ _ Hl).
    apply t_status; [done| rewrite Hs; constructor | done].
  - (* ClickStart *)
    case_match eqn:Hg; [|done]. intros [= <-].
    apply startRendered_true in Hg as (a & Hl & _ & Hs).
    rewrite (updateAppointmentStatus_writes _ _ _ _ Hl).
    apply t_status; [done| rewrite Hs; constructor | done].
  - (* ClickAddPrescription *)
    case_match eqn:Hg; [|done]. intros [= <-].
    apply addPrescriptionRendered_true in Hg as (a & Hl & _ & Hs).
    apply t_doctor_screen. simpl. intros ? [= <-]. right. eauto.
  - (* TypePrescription *)
    case_match eqn:Hg; [|done]. intros [= <-].
    apply t_doctor_screen. simpl. intros ? ?. by left.
  - (* ClickComplete *)
    case_match eqn:Hg; [|done].
    apply prescriptionFormRendered_true in Hg as (a & Hl & _ & Hs & Hsel).
    destruct (truthy (trim (medicine
      (DoctorDashboard.prescriptionData (doctorScreen w d))))) eqn:Hm.
    + rewrite (handlePrescriptionSubmit_writes _ _ _ _ Hm Hl). intros [= <-].
      by apply t_completed.
    + rewrite (handlePrescriptionSubmit_blank _ _ _ Hm). intros [= <-].
      apply t_doctor_screen. intros ? ?. by left.
  - (* ClickCancel *)
    case_match eqn:Hg; [|done]. intros [= <-].
    apply t_doctor_screen. simpl. intros ? [=].
  - (* ClickStar *)
    case_match eqn:Hg; [|done]. intros [= <-].
    apply t_patient_screen. intros ? ?. apply updateFeedback_rating.
  - (* TypeComment *)
    case_match eqn:Hg; [|done]. intros [= <-].
    apply t_patient_screen. intros ? ?. apply updateFeedback_rating.
  - (* ClickSubmitFeedback *)
    case_match eqn:Hg; [|done].
    apply andb_prop in Hg as [Hform Hen%negb_true_iff].
    apply feedbackFormRendered_true in Hform as (a & Hl & Hp & Hs & Hf).
    unfold PatientDashboard.submitDisabled in Hen.
    destruct (PatientDashboard.feedbackData (patientScreen w p) !! id)
      as [f|] eqn:Hentry; [|done].
    apply Z.eqb_neq in Hen.
    rewrite (handleFeedbackSubmit_writes _ _ _ _ _ Hentry Hen Hl). intros [= <-].
    by apply t_feedback.
Qed.

(** ** Invariants of the running application *)

Lemma run_preserves (P : World → Prop) :
  (∀ w w', P w → transition w w' → P w') →
  ∀ es w w', P w → run w es = Some w' → P w'.
Proof.
  intros Hstep. induction es as [|e es IH]; intros w w' HP; simpl.
  - by intros [= <-].
  - destruct (step w e) as [w1|] eqn:He; [|done].
    apply IH. eapply Hstep; [done | by eapply step_transition].
Qed.

Lemma doctorScreen_selected (w : World) (d id : string) :
  DoctorDashboard.selectedAppointment (doctorScreen w d) = Some id →
  ∃ st, doctorScreens w !! d = Some st
        ∧ DoctorDashboard.selectedAppointment st = Some id.
Proof.
  unfold doctorScreen. destruct (doctorScreens w !! d) as [st|]; simpl; [eauto | done].
Qed.

Lemma patientScreen_entry (w : World) (p id : string) (f : Feedback) :
  PatientDashboard.feedbackData (patientScreen w p) !! id = Some f →
  ∃ st, patientScreens w !! p = Some st
        ∧ PatientDashboard.feedbackData st !! id = Some f.
Proof.
  unfold patientScreen. destruct (patientScreens w !! p) as [st|]; simpl; [eauto|].
  by rewrite lookup_empty.
Qed.

(** The record under a selected prescription form is in progress. *)
Lemma selected_in_progress (w : World) (d id : string) (a : Appointment) :
  selectionsInProgress w →
  DoctorDashboard.selectedAppointment (doctorScreen w d) = Some id →
  store w !! id = Some a →
  status a = confirmed ∨ status a = in_progress →
  status a = in_progress.
Proof.
  intros Hsel (st & Hd & Hs)%doctorScreen_selected Hl Hact.
  destruct (Hsel d st id Hd Hs) as (a' & Hl' & Hst).
  rewrite Hl in Hl'. injection Hl' as <-.
  destruct Hact as [Hc|]; [|done]. rewrite Hc in Hst. by destruct Hst.
Qed.

Lemma transition_selections (w w' : World) :
  selectionsInProgress w → transition w w' → selectionsInProgress w'.
Proof.
  intros Hsel Ht d0 st0 id0. destruct Ht; simpl.
  - apply Hsel.
  - intros Hd Hs. destruct (Hsel _ _ _ Hd Hs) as (a0 & Hl & Hst).
    exists a0. split; [|done]. rewrite lookup_insert_ne; [done|congruence].
  - intros Hd Hs. destruct (Hsel _ _ _ Hd Hs) as (a0 & Hl & Hst).
    destruct (decide (id = id0)) as [->|Hne].
    + rewrite H in Hl. injection Hl as <-.
      destruct H0; destruct Hst; congruence.
    + exists a0. by rewrite lookup_insert_ne.
  - destruct (decide (d = d0)) as [->|Hne].
    + rewrite lookup_insert_eq. intros [= <-] Hs.
      destruct (H _ Hs) as [Hold|(a0 & Hl & Hst)]; [|eauto].
      apply doctorScreen_selected in Hold as (st1 & Hd1 & Hs1). eauto.
    + rewrite lookup_insert_ne by done. apply Hsel.
  - destruct (decide (d = d0)) as [->|Hne].
    + rewrite lookup_insert_eq. by intros [= <-] Hs.
    + rewrite lookup_insert_ne by done. intros Hd Hs.
      destruct (Hsel _ _ _ Hd Hs) as (a0 & Hl & Hst).
      destruct (decide (id = id0)) as [->|Hne'].
      * rewrite lookup_insert_eq. eexists. split; [done|]. by right.
      * exists a0. by rewrite lookup_insert_ne.
  - apply Hsel.
  - intros Hd Hs. destruct (Hsel _ _ _ Hd Hs) as (a0 & Hl & Hst).
    destruct (decide (id = id0)) as [->|Hne].
    + rewrite lookup_insert_eq. rewrite H in Hl. injection Hl as <-.
      eexists. split; [done|]. done.
    + exists a0. by rewrite lookup_insert_ne.
Qed.

(** One event moves a record along at most one edge, and changes nothing
    of it but status, prescription and feedback. *)
Lemma transition_edge (w w' : World) (id : string) (a : Appointment) :
  selectionsInProgress w → transition w w' →
  store w !! id = Some a →
  ∃ a', store w' !! id = Some a'
        ∧ (status a' = status a ∨ edge (status a) (status a'))
        ∧ patientId a' = patientId a ∧ doctorId a' = doctorId a
        ∧ date a' = date a ∧ time a' = time a.
Proof.
  intros Hsel Ht Hl. destruct Ht; simpl.
  - exists a. eauto 8.
  - exists a. rewrite lookup_insert_ne; [eauto 8 | congruence].
  - destruct (decide (id0 = id)) as [->|Hne].
    + rewrite lookup_insert_eq. rewrite H in Hl. injection Hl as <-.
      eexists. split; [done|]. simpl. eauto 8.
    + exists a. rewrite lookup_insert_ne by done. eauto 8.
  - exists a. eauto 8.
  - destruct (decide (id0 = id)) as [->|Hne].
    + rewrite lookup_insert_eq. rewrite H in Hl. injection Hl as <-.
      eexists. split; [done|]. simpl.
      rewrite (selected_in_progress w d id a0 Hsel H1 H H0).
      split; [right; constructor | done].
    + exists a. rewrite lookup_insert_ne by done. eauto 8.
  - exists a. eauto 8.
  - destruct (decide (id0 = id)) as [->|Hne].
    + rewrite lookup_insert_eq. rewrite H in Hl. injection Hl as <-.
      eexists. split; [done|]. simpl. eauto 8.
    + exists a. rewrite lookup_insert_ne by done. eauto 8.
Qed.

Lemma transition_prescribed (w w' : World) :
  selectionsInProgress w ∧ prescribedIffCompleted (store w) →
  transition w w' →
  selectionsInProgress w' ∧ prescribedIffCompleted (store w').
Proof.
  intros [Hsel HI2] Ht. split; [by eapply transition_selections|].
  intros id0 a0. destruct Ht; simpl.
  - apply HI2.
  - intros [[<- <-]|[_ Hl]]%lookup_insert_Some; [|by eapply HI2].
    rewrite H0, H1. split; [by intros [? ?] | done].
  - intros [[<- <-]|[_ Hl]]%lookup_insert_Some; [|by eapply HI2].
    simpl. rewrite (HI2 _ _ H). split.
    + intros Hc. rewrite Hc in H0. inversion H0.
    + done.
  - apply HI2.
  - intros [[<- <-]|[_ Hl]]%lookup_insert_Some; [|by eapply HI2].
    simpl. split; [done | by eexists].
  - apply HI2.
  - intros [[<- <-]|[_ Hl]]%lookup_insert_Some; [|by eapply HI2].
    simpl. by apply (HI2 _ _ H).
Qed.

Lemma transition_feedbackOnCompleted (w w' : World) :
  feedbackOnCompleted (store w) → transition w w' →
  feedbackOnCompleted (store w').
Proof.
  intros HI3 Ht id0 a0. destruct Ht; simpl.
  - apply HI3.
  - intros [[<- <-]|[_ Hl]]%lookup_insert_Some; [|by eapply HI3].
    rewrite H2. by intros [? ?].
  - intros [[<- <-]|[_ Hl]]%lookup_insert_Some; [|by eapply HI3].
    simpl. intros Hf. rewrite (HI3 _ _ H Hf) in H0. inversion H0.
  - apply HI3.
  - intros [[<- <-]|[_ Hl]]%lookup_insert_Some; [|by eapply HI3]. done.
  - apply HI3.
  - intros [[<- <-]|[_ Hl]]%lookup_insert_Some; [|by eapply HI3]. done.
Qed.

Lemma transition_ratings (w w' : World) :
  draftsInRange w ∧ ratingsInRange (store w) →
  transition w w' →
  draftsInRange w' ∧ ratingsInRange (store w').
Proof.
  intros [Hd HI4] Ht. destruct Ht; simpl.
  - done.
  - split; [done|]. intros id0 a0 f0.
    intros [[<- <-]|[_ Hl]]%lookup_insert_Some; [|by eapply HI4]. by rewrite H2.
  - split; [done|]. intros id0 a0 f0.
    intros [[<- <-]|[_ Hl]]%lookup_insert_Some; [|by eapply HI4].
    simpl. by apply (HI4 _ _ _ H).
  - done.
  - split; [done|]. intros id0 a0 f0.
    intros [[<- <-]|[_ Hl]]%lookup_insert_Some; [|by eapply HI4].
    simpl. by apply (HI4 _ _ _ H).
  - split; [|done]. intros p0 st0 id0 f0. simpl.
    intros [[<- <-]|[_ Hl]]%lookup_insert_Some; [|by eapply Hd].
    intros Hf. destruct (H _ _ Hf) as [(f1 & Hf1 & ->)|]; [|done].
    apply patientScreen_entry in Hf1 as (st1 & Hp1 & Hf1). by eapply Hd.
  - apply patientScreen_entry in H3 as (st1 & Hp1 & Hf1).
    pose proof (Hd _ _ _ _ Hp1 Hf1) as Hrange.
    split.
    + intros p0 st0 id0 f0. simpl.
      intros [[<- <-]|[_ Hl]]%lookup_insert_Some; [|by eapply Hd].
      simpl. intros [_ Hf]%lookup_delete_Some.
      apply patientScreen_entry in Hf as (st2 & Hp2 & Hf2). by eapply Hd.
    + intros id0 a0 f0.
      intros [[<- <-]|[_ Hl]]%lookup_insert_Some; [|by eapply HI4].
      simpl. intros [= <-]. lia.
Qed.

(** Stored feedback is never replaced. *)
Lemma transition_keeps_feedback (w w' : World) (id : string) (a : Appointment)
    (f : Feedback) :
  transition w w' → store w !! id = Some a → feedback a = Some f →
  ∃ a', store w' !! id = Some a' ∧ feedback a' = Some f.
Proof.
  intros Ht Hl Hf. destruct Ht; simpl.
  - eauto.
  - exists a. rewrite lookup_insert_ne; [done | congruence].
  - destruct (decide (id0 = id)) as [->|Hne].
    + rewrite lookup_insert_eq. rewrite H in Hl. injection Hl as <-. eauto.
    + exists a. by rewrite lookup_insert_ne.
  - eauto.
  - destruct (decide (id0 = id)) as [->|Hne].
    + rewrite lookup_insert_eq. rewrite H in Hl. injection Hl as <-. eauto.
    + exists a. by rewrite lookup_insert_ne.
  - eauto.
  - destruct (decide (id0 = id)) as [->|Hne].
    + rewrite H in Hl. injection Hl as <-. congruence.
    + exists a. by rewrite lookup_insert_ne.
Qed.

(** ** Registration *)

Lemma onAuthStateChanged_users (st : AuthContext.State) (user : option string) :
  AuthContext.users (AuthContext.onAuthStateChanged st user) = AuthContext.users st.
Proof.
  unfold AuthContext.onAuthStateChanged, AuthContext.fetchUserProfile.
  destruct user as [u|]; simpl; [|done].
  by destruct (AuthContext.users st !! u).
Qed.

Lemma onAuthStateChanged_valid (st : AuthContext.State) (user : option string) :
  clinicProfilesOnly st →
  clinicProfilesOnly (AuthContext.onAuthStateChanged st user).
Proof.
  intros [Hu Hp]. split.
  - rewrite onAuthStateChanged_users. apply Hu.
  - unfold AuthContext.onAuthStateChanged, AuthContext.fetchUserProfile.
    destruct user as [u|]; simpl; [|done].
    destruct (AuthContext.users st !! u) as [q|] eqn:Hq; simpl.
    + intros p [= <-]. by eapply Hu.
    + apply Hp.
Qed.

Lemma register_rejects (st : AuthContext.State)
    (email password firstName lastName : string) (role : Role)
    (newUid : string) (now : Z) :
  AuthContext.validateEmail email = false →
  AuthContext.register st email password firstName lastName role newUid now
  = (AuthContext.Threw AuthContext.EmailDomainRequired, st).
Proof. unfold AuthContext.register. by intros ->. Qed.

Lemma register_accepts (st : AuthContext.State)
    (email password firstName lastName : string) (role : Role)
    (newUid : string) (now : Z) :
  AuthContext.validateEmail email = true →
  AuthContext.accounts st !! email = None →
  AuthContext.register st email password firstName lastName role newUid now
  = (AuthContext.Resolved,
     AuthContext.mkState
       (<[email := AuthContext.mkAccount newUid password]> (AuthContext.accounts st))
       (<[newUid := mkUserProfile newUid email role firstName lastName now]>
          (AuthContext.users st))
       (Some newUid)
       (Some (mkUserProfile newUid email role firstName lastName now))).
Proof.
  intros Hv Hfree.
  unfold AuthContext.register, AuthContext.createUserWithEmailAndPassword.
  rewrite Hv, Hfree. cbn [negb].
  unfold AuthContext.onAuthStateChanged, AuthContext.fetchUserProfile, setDoc.
  cbn [AuthContext.users AuthContext.accounts AuthContext.currentUser].
  by destruct (AuthContext.users st !! newUid).
Qed.

Lemma register_taken (st : AuthContext.State)
    (email password firstName lastName : string) (role : Role)
    (newUid : string) (now : Z) (acc : AuthContext.Account) :
  AuthContext.validateEmail email = true →
  AuthContext.accounts st !! email = Some acc →
  AuthContext.register st email password firstName lastName role newUid now
  = (AuthContext.Threw AuthContext.AuthRejected, st).
Proof.
  intros Hv Htaken.
  unfold AuthContext.register, AuthContext.createUserWithEmailAndPassword.
  by rewrite Hv, Htaken.
Qed.

Lemma call_valid (st : AuthContext.State) (c : AuthContext.Call) :
  clinicProfilesOnly st → clinicProfilesOnly (AuthContext.call st c).2.
Proof.
  intros Hst. destruct c as [email password firstName lastName role newUid now
                            | email password | ]; cbn [AuthContext.call].
  - destruct (AuthContext.validateEmail email) eqn:Hv;
      [|by rewrite register_rejects].
    destruct (AuthContext.accounts st !! email) as [acc|] eqn:Hacc;
      [by erewrite register_taken|].
    rewrite register_accepts by done. destruct Hst as [Hu Hp]. split; simpl.
    + intros u p [[_ <-]|[_ Hl]]%lookup_insert_Some; [done|].
      by eapply Hu.
    + by intros p [= <-].
  - unfold AuthContext.login.
    destruct (AuthContext.signInWithEmailAndPassword _ _ _); cbn [snd]; [|done].
    by apply onAuthStateChanged_valid.
  - destruct Hst as [Hu Hp]. split; simpl; [|done].
    apply Hu.
Qed.

Lemma calls_valid (cs : list AuthContext.Call) (st : AuthContext.State) :
  clinicProfilesOnly st → clinicProfilesOnly (AuthContext.calls st cs).
Proof.
  unfold AuthContext.calls. revert st.
  induction cs as [|c cs IH]; intros st Hst; simpl; [done|].
  apply IH. by apply call_valid.
Qed.

Lemma initialState_valid : clinicProfilesOnly AuthContext.initialState.
Proof. split; simpl; [intros u p; by rewrite lookup_empty | done]. Qed.

(** ** Statistics *)

Lemma length_filter_countWhere {A : Type} (cond : A → bool) (l : list A) :
  length (List.filter cond l) = countWhere cond l.
Proof.
  induction l as [|x l IH]; simpl; [done|].
  destruct (cond x); simpl; by rewrite IH.
Qed.

Lemma ratings_of_appointmentsWithFeedback (apps : list (string * Appointment)) :
  DoctorDashboard.ratingOf <$> DoctorDashboard.appointmentsWithFeedback apps
  = ratingsPresent apps.
Proof.
  unfold DoctorDashboard.appointmentsWithFeedback, ratingsPresent.
  induction apps as [|[id a] apps IH]; simpl; [done|].
  destruct (feedback a) as [f|] eqn:Hf; simpl.
  - f_equal; [|exact IH].
    unfold DoctorDashboard.ratingOf. simpl. by rewrite Hf.
  - exact IH.
Qed.

Lemma reduce_sum (l : list (string * Appointment)) (start : Z) :
  fold_left (λ sum apt, sum + DoctorDashboard.ratingOf apt) l start
  = start + sumRatings (DoctorDashboard.ratingOf <$> l).
Proof.
  revert start. induction l as [|x l IH]; intros start.
  - cbn. lia.
  - rewrite fmap_cons. cbn [sumRatings fold_left]. rewrite IH. lia.
Qed.

Lemma averageRating_mean (apps : list (string * Appointment)) :
  DoctorDashboard.averageRating apps = arithmeticMean (ratingsPresent apps).
Proof.
  unfold DoctorDashboard.averageRating.
  rewrite reduce_sum, Z.add_0_l.
  rewrite <- (length_fmap DoctorDashboard.ratingOf).
  rewrite ratings_of_appointmentsWithFeedback.
  by destruct (ratingsPresent apps).
Qed.

Lemma completedVisitsCard_counts (apps : list (string * Appointment)) :
  PatientDashboard.completedVisitsCard apps
  = (countWhere (λ apt, bool_decide (status apt.2 = completed)) apps
     + countWhere (λ apt, bool_decide (status apt.2 = cancelled)) apps)%nat.
Proof.
  unfold PatientDashboard.completedVisitsCard, PatientDashboard.pastAppointments.
  rewrite length_filter_countWhere.
  induction apps as [|[id a] apps IH]; simpl; [done|].
  rewrite IH. unfold includes. destruct (status a); simpl; lia.
Qed.

(** The other two cards of the patient's dashboard count what their
    captions say. *)
Lemma upcoming_and_prescriptions_cards (apps : list (string * Appointment)) :
  PatientDashboard.upcomingCard apps
  = countWhere (λ apt, bool_decide (status apt.2 ∈ [pending; confirmed; in_progress]))
      apps
  ∧ PatientDashboard.prescriptionsCard apps
    = countWhere (λ apt, bool_decide (is_Some (prescription apt.2))) apps.
Proof.
  unfold PatientDashboard.upcomingCard, PatientDashboard.upcomingAppointments,
    PatientDashboard.prescriptionsCard.
  by rewrite !length_filter_countWhere.
Qed.

(** ** Runs of the application *)

Lemma edge_from_terminal (s s' : Status) :
  rtc edge s s' → s = completed ∨ s = cancelled → s' = s.
Proof.
  intros Hpath Hterm. destruct Hpath as [|s1 s2 s3 Hedge _]; [done|].
  destruct Hterm as [-> | ->]; inversion Hedge.
Qed.

Lemma run_selections (es : list Event) (w w' : World) :
  selectionsInProgress w → run w es = Some w' → selectionsInProgress w'.
Proof. apply run_preserves. intros. by eapply transition_selections. Qed.

Lemma run_prescribed (es : list Event) (w w' : World) :
  selectionsInProgress w → prescribedIffCompleted (store w) →
  run w es = Some w' → prescribedIffCompleted (store w').
Proof.
  intros Hsel HI2 Hrun.
  apply (run_preserves
           (λ w, selectionsInProgress w ∧ prescribedIffCompleted (store w))
           transition_prescribed es w w'); done.
Qed.

Lemma run_ratings (es : list Event) (w w' : World) :
  draftsInRange w → ratingsInRange (store w) →
  run w es = Some w' → ratingsInRange (store w').
Proof.
  intros Hd HI4 Hrun.
  apply (run_preserves (λ w, draftsInRange w ∧ ratingsInRange (store w))
           transition_ratings es w w'); done.
Qed.

Lemma run_follows_edges (es : list Event) (w w' : World) (id : string)
    (a : Appointment) :
  selectionsInProgress w → run w es = Some w' → store w !! id = Some a →
  ∃ a', store w' !! id = Some a' ∧ rtc edge (status a) (status a')
        ∧ patientId a' = patientId a ∧ doctorId a' = doctorId a
        ∧ date a' = date a ∧ time a' = time a.
Proof.
  revert w a. induction es as [|e es IH]; intros w a Hsel; simpl.
  - intros [= <-] Hl. exists a. by repeat split.
  - destruct (step w e) as [w1|] eqn:He; [|done]. intros Hrun Hl.
    apply step_transition in He.
    destruct (transition_edge w w1 id a Hsel He Hl)
      as (a1 & Hl1 & Hst & Hp & Hd & Hdate & Htime).
    destruct (IH w1 a1 (transition_selections _ _ Hsel He) Hrun Hl1)
      as (a' & Hl' & Hpath & Hp' & Hd' & Hdate' & Htime').
    exists a'. repeat split; try congruence.
    destruct Hst as [<-|Hedge]; [done|]. by econstructor.
Qed.

Lemma run_keeps_feedback (es : list Event) (w w' : World) (id : string)
    (a : Appointment) (f : Feedback) :
  run w es = Some w' → store w !! id = Some a → feedback a = Some f →
  ∃ a', store w' !! id = Some a' ∧ feedback a' = Some f.
Proof.
  revert w a. induction es as [|e es IH]; intros w a; simpl.
  - intros [= <-]. eauto.
  - destruct (step w e) as [w1|] eqn:He; [|done]. intros Hrun Hl Hf.
    apply step_transition in He.
    destruct (transition_keeps_feedback w w1 id a f He Hl Hf) as (a1 & Hl1 & Hf1).
    by eapply IH.
Qed.

(** ** Who writes a prescription *)

Lemma mergeStatus_prescription (s : Status) (a : Appointment) :
  prescription (mergeStatus s a) = prescription a.
Proof. done. Qed.

Lemma step_prescription_writer (w w' : World) (e : Event) (id : string)
    (a a' : Appointment) :
  step w e = Some w' →
  store w !! id = Some a → store w' !! id = Some a' →
  prescription a' ≠ prescription a →
  ∃ d, e = ClickComplete d id.
Proof.
  intros Hstep Hl Hl' Hchanged.
  assert (Hsame : store w' = store w → False)
    by (intros Heq; rewrite Heq, Hl in Hl'; by injection Hl' as <-).
  assert (Hmerge : ∀ id0 a0 (merge : Appointment → Appointment),
            (∀ x, prescription (merge x) = prescription x) →
            store w !! id0 = Some a0 →
            store w' = <[id0 := merge a0]> (store w) → False).
  { intros id0 a0 merge Hkeep Hl0 Heq. rewrite Heq in Hl'.
    apply lookup_insert_Some in Hl' as [[<- <-]|[_ Hl']].
    - rewrite Hl in Hl0. injection Hl0 as <-. by rewrite Hkeep in Hchanged.
    - rewrite Hl in Hl'. by injection Hl' as <-. }
  destruct e; simpl in Hstep.
  - case_match eqn:Hg; [|done]. injection Hstep as <-. exfalso.
    apply andb_prop in Hg as [[Hfresh%bool_decide_eq_true _]%andb_prop _].
    simpl in Hl'.
    destruct (handleSubmit_store (store w) userProfile doctors today form newId now)
      as [[_ Heq]|[_ (a0 & Heq & _)]]; rewrite Heq in Hl'.
    + rewrite Hl in Hl'. by injection Hl' as <-.
    + rewrite lookup_insert_ne in Hl' by congruence.
      rewrite Hl in Hl'. by injection Hl' as <-.
  - case_match eqn:Hg; [|done]. injection Hstep as <-. exfalso.
    apply acceptRendered_true in Hg as (a0 & Hl0 & _).
    apply (Hmerge id0 a0 (mergeStatus confirmed)); [done..|].
    simpl. by apply updateAppointmentStatus_writes.
  - case_match eqn:Hg; [|done]. injection Hstep as <-. exfalso.
    apply acceptRendered_true in Hg as (a0 & Hl0 & _).
    apply (Hmerge id0 a0 (mergeStatus cancelled)); [done..|].
    simpl. by apply updateAppointmentStatus_writes.
  - case_match eqn:Hg; [|done]. injection Hstep as <-. exfalso.
    apply startRendered_true in Hg as (a0 & Hl0 & _).
    apply (Hmerge id0 a0 (mergeStatus in_progress)); [done..|].
    simpl. by apply updateAppointmentStatus_writes.
  - case_match; [|done]. injection Hstep as <-. by destruct Hsame.
  - case_match; [|done]. injection Hstep as <-. by destruct Hsame.
  - case_match eqn:Hg; [|done].
    apply prescriptionFormRendered_true in Hg as (a0 & Hl0 & _).
    destruct (decide (id0 = id)) as [->|Hne]; [eauto|]. exfalso.
    destruct (truthy (trim (medicine
      (DoctorDashboard.prescriptionData (doctorScreen w d))))) eqn:Hm.
    + rewrite (handlePrescriptionSubmit_writes _ _ _ _ Hm Hl0) in Hstep.
      injection Hstep as <-. simpl in Hl'.
      rewrite lookup_insert_ne in Hl' by done.
      rewrite Hl in Hl'. by injection Hl' as <-.
    + rewrite (handlePrescriptionSubmit_blank _ _ _ Hm) in Hstep.
      injection Hstep as <-. by destruct Hsame.
  - case_match; [|done]. injection Hstep as <-. by destruct Hsame.
  - case_match; [|done]. injection Hstep as <-. by destruct Hsame.
  - case_match; [|done]. injection Hstep as <-. by destruct Hsame.
  - case_match eqn:Hg; [|done]. exfalso.
    apply andb_prop in Hg as [Hform Hen%negb_true_iff].
    apply feedbackFormRendered_true in Hform as (a0 & Hl0 & _).
    unfold PatientDashboard.submitDisabled in Hen.
    destruct (PatientDashboard.feedbackData (patientScreen w p) !! id0)
      as [f|] eqn:Hentry; [|done].
    apply Z.eqb_neq in Hen.
    rewrite (handleFeedbackSubmit_writes _ _ _ _ _ Hentry Hen Hl0) in Hstep.
    injection Hstep as <-.
    by apply (Hmerge id0 a0 (mergeFeedback f)).
Qed.

(** ** The prescription a requester is shown *)

Lemma find_card (db : gmap string Appointment)
    (cards : list (string * Appointment)) (id : string) (a : Appointment) :
  (∀ i x, (i, x) ∈ cards → db !! i = Some x) →
  List.find (λ apt, String.eqb apt.1 id) cards = Some (id, a) ↔ (id, a) ∈ cards.
Proof.
  intros Hfun. split.
  - intros [Hin _]%find_some. by apply list_elem_of_In.
  - intros Hin.
    destruct (List.find (λ apt, String.eqb apt.1 id) cards) as [[i x]|] eqn:Hfind.
    + apply find_some in Hfind as [Hx Hi%String.eqb_eq]. simpl in Hi. subst i.
      apply list_elem_of_In in Hx.
      pose proof (Hfun _ _ Hx) as H1. pose proof (Hfun _ _ Hin) as H2.
      congruence.
    + apply list_elem_of_In in Hin.
      pose proof (find_none _ _ Hfind _ Hin) as Hno. simpl in Hno.
      by rewrite String.eqb_refl in Hno.
Qed.

Lemma elem_of_pastAppointments (db : gmap string Appointment)
    (p id : string) (a : Appointment) :
  (id, a) ∈ PatientDashboard.pastAppointments (PatientDashboard.appointments db p)
  ↔ db !! id = Some a ∧ patientId a = p
    ∧ (status a = completed ∨ status a = cancelled).
Proof.
  unfold PatientDashboard.pastAppointments, PatientDashboard.appointments.
  rewrite elem_of_filter_bool, elem_of_snapshot, includes_true,
    bool_decide_eq_true. simpl.
  rewrite !elem_of_cons, elem_of_nil. tauto.
Qed.

Lemma prescriptionBox_Some (a : Appointment) (p : Prescription) :
  PatientDashboard.prescriptionBox a = Some p
  ↔ status a = completed ∧ prescription a = Some p.
Proof.
  unfold PatientDashboard.prescriptionBox.
  destruct (prescription a) as [q|].
  - destruct (decide (status a = completed)) as [Hs|Hs].
    + split; [by intros [= ->] | by intros [_ [= ->]]].
    + split; [done | by intros [? _]].
  - split; [done | by intros [_ ?]].
Qed.

Lemma viewPrescription_Some (db : gmap string Appointment)
    (requester : UserProfile) (id : string) (p : Prescription) :
  viewPrescription db requester id = Some p
  ↔ ∃ a, db !! id = Some a ∧ status a = completed ∧ prescription a = Some p
         ∧ role requester = patient ∧ patientId a = uid requester.
Proof.
  assert (Hfun : ∀ i x,
            (i, x) ∈ PatientDashboard.pastAppointments
                       (PatientDashboard.appointments db (uid requester)) →
            db !! i = Some x)
    by (intros i x Hin; by apply elem_of_pastAppointments in Hin as [? _]).
  unfold viewPrescription. destruct (role requester) eqn:Hrole.
  - split; [done | by intros (a & _ & _ & _ & ? & _)].
  - unfold PatientDashboard.shownPrescription. split.
    + destruct (List.find _ _) as [[i a]|] eqn:Hfind; [|done].
      pose proof Hfind as [_ Hi%String.eqb_eq]%find_some. simpl in Hi. subst i.
      apply (find_card db) in Hfind; [|done].
      apply elem_of_pastAppointments in Hfind as (Hl & Hp & _).
      intros [Hs Hrx]%prescriptionBox_Some. eauto 8.
    + intros (a & Hl & Hs & Hrx & _ & Hp).
      assert (Hin : (id, a) ∈ PatientDashboard.pastAppointments
                                (PatientDashboard.appointments db (uid requester)))
        by (apply elem_of_pastAppointments; eauto).
      apply (find_card db) in Hin; [|done]. rewrite Hin.
      by apply prescriptionBox_Some.
Qed.

(** ** The booking form *)

Lemma required_fields (a b c : string) :
  negb (truthy a) || negb (truthy b) || negb (truthy c) = true
  ↔ a = EmptyString ∨ b = EmptyString ∨ c = EmptyString.
Proof.
  destruct a, b, c; simpl; split; try done; try tauto;
    intros [|[|]]; done.
Qed.

(** The cap only sees the caller's own records: a patient without a record
    in the store is never refused by it. *)
Lemma cap_ignores_other_patients (db : gmap string Appointment)
    (userProfile : UserProfile) (today : string) :
  (∀ id a, db !! id = Some a → patientId a ≠ uid userProfile) →
  BookAppointment.todayAppointments db userProfile today = 0%nat.
Proof.
  intros Hother. unfold BookAppointment.todayAppointments.
  rewrite (elem_of_nil_inv (snapshot db _)); [done|].
  intros [id a] [Hl Hw]%elem_of_snapshot.
  apply andb_prop in Hw as [Hp%bool_decide_eq_true _]. by eapply Hother.
Qed.

Example bob_books_while_alice_is_at_the_cap :
  (BookAppointment.handleSubmit Sample.twoOnFirstOfJune Sample.bob
     [Sample.drGrey] "2025-06-01" (Sample.request "2025-06-01" "10:00")
     "a3" 3000).1 = BookAppointment.Booked.
Proof. by vm_compute. Qed.

(** ** The rating form *)

(** A click on a star of an untouched form leaves the entry at rating 0, and
    the Submit button disabled: in the literal of [updateFeedback] the
    [rating] property is written again, from the previous entry, after the
    clicked value. *)
Lemma star_click_leaves_rating_zero (st : PatientDashboard.State) (id : string)
    (star : Z) :
  PatientDashboard.feedbackData st !! id = None →
  PatientDashboard.feedbackData
    (PatientDashboard.updateFeedback st id PatientDashboard.ratingField
       (PatientDashboard.Num star)) !! id
  = Some (mkFeedback 0 EmptyString)
  ∧ PatientDashboard.submitDisabled
      (PatientDashboard.updateFeedback st id PatientDashboard.ratingField
         (PatientDashboard.Num star)) id = true.
Proof.
  intros Hnone. unfold PatientDashboard.submitDisabled.
  rewrite updateFeedback_entry, Hnone. done.
Qed.

(** ** The initial world *)

Lemma initialWorld_invariants :
  selectionsInProgress initialWorld
  ∧ draftsInRange initialWorld
  ∧ prescribedIffCompleted (store initialWorld)
  ∧ feedbackOnCompleted (store initialWorld)
  ∧ ratingsInRange (store initialWorld).
Proof.
  repeat split; repeat intro; simpl in *;
    match goal with H : ∅ !! _ = Some _ |- _ => by rewrite lookup_empty in H end.
Qed.

(** * The claims *)

(** C1 (code defect). The daily cap of [handleSubmit] counts the records
    dated today, not the records of the requested date.  With two records of
    Alice for 2 June in the store and today being 1 June, a third request for
    2 June is booked and three records exist for that patient and date, where
    the contract answers DailyLimitExceeded.  The other way round, two
    records dated today refuse a request for 3 June, a date for which the
    patient has no record. *)
Theorem C1_cap_counts_today_not_requested_date :
  let third :=
    BookAppointment.handleSubmit Sample.twoOnSecondOfJune Sample.alice
      [Sample.drGrey] "2025-06-01" (Sample.request "2025-06-02" "10:00")
      "a3" 3000 in
  Contract.sameDayCount Sample.twoOnSecondOfJune "p1" "2025-06-02" = 2%nat
  ∧ third.1 = BookAppointment.Booked
  ∧ Contract.sameDayCount third.2 "p1" "2025-06-02" = 3%nat
  ∧ Contract.book Sample.twoOnSecondOfJune ["d1"] "2025-06-01" "p1" "d1"
      "2025-06-02" "10:00" = Some Contract.DailyLimitExceeded
  ∧ Contract.sameDayCount Sample.twoOnFirstOfJune "p1" "2025-06-03" = 0%nat
  ∧ BookAppointment.handleSubmit Sample.twoOnFirstOfJune Sample.alice
      [Sample.drGrey] "2025-06-01" (Sample.request "2025-06-03" "10:00")
      "a3" 3000
    = (BookAppointment.DailyLimitExceeded, Sample.twoOnFirstOfJune).
Proof. repeat split; vm_compute; reflexivity. Qed.




















(** C9 (code defect). The card captioned 'Completed Visits' shows the length
    of the past list, which holds the cancelled records as well as the
    completed ones: for a patient whose only record is cancelled it shows 1
    although no record has status completed. *)
Theorem C9_completed_visits_card_counts_cancelled :
  let apps :=
    PatientDashboard.appointments (<["a1" := Sample.cancelledVisit]> ∅) "p1" in
  apps = [("a1", Sample.cancelledVisit)]
  ∧ PatientDashboard.completedVisitsCard apps = 1%nat
  ∧ countWhere (λ apt, bool_decide (status apt.2 = completed)) apps = 0%nat
  ∧ DoctorDashboard.completedCount apps = 0%nat.
Proof. repeat split; vm_compute; reflexivity. Qed.

(** C10. [register] throws, and leaves the accounts, the profile documents
    and the session as they were, for every e-mail address that does not end
    with '@meditrack.local'; and after any sequence of register, login and
    logout calls from the empty system, the identity (user id and role) the
    application reads belongs to a profile whose address ends with that
    suffix, as does every stored profile. *)
Theorem C10_only_clinic_addresses_get_an_identity :
  (∀ st email password firstName lastName role newUid now,
     (∀ prefix, email ≠ prefix +:+ "@meditrack.local") →
     AuthContext.register st email password firstName lastName role newUid now
     = (AuthContext.Threw AuthContext.EmailDomainRequired, st))
  ∧ (∀ cs userId userRole,
       AuthContext.identity (AuthContext.calls AuthContext.initialState cs)
       = Some (userId, userRole) →
       ∃ p prefix,
         AuthContext.userProfile (AuthContext.calls AuthContext.initialState cs)
         = Some p
         ∧ uid p = userId ∧ role p = userRole
         ∧ email p = prefix +:+ "@meditrack.local")
  ∧ (∀ cs u p,
       AuthContext.users (AuthContext.calls AuthContext.initialState cs) !! u
       = Some p →
       ∃ prefix, email p = prefix +:+ "@meditrack.local").
Proof.
  split; [|split].
  - intros st email password firstName lastName role newUid now Hno.
    apply register_rejects.
    destruct (AuthContext.validateEmail email) eqn:Hv; [|done].
    apply endsWith_suffix in Hv as [prefix ->]. by destruct (Hno prefix).
  - intros cs userId userRole Hid.
    destruct (calls_valid cs _ initialState_valid) as [_ Hp].
    unfold AuthContext.identity in Hid.
    destruct (AuthContext.userProfile _) as [p|] eqn:Hprofile; [|done].
    injection Hid as <- <-.
    destruct (proj1 (endsWith_suffix _ _) (Hp p eq_refl)) as [prefix Hprefix].
    by exists p, prefix.
  - intros cs u p Hl.
    destruct (calls_valid cs _ initialState_valid) as [Hu _].
    apply (endsWith_suffix (email p) "@meditrack.local"). by eapply Hu.
Qed.

(** Mallory's address is refused and changes nothing; after the sign-ups
    Alice is signed in, with her clinic address. *)
Lemma C10_witness :
  AuthContext.register AuthContext.initialState "mallory@example.com" "secret3"
    "Mallory" "Roe" doctor "p9" 1002
  = (AuthContext.Threw AuthContext.EmailDomainRequired, AuthContext.initialState)
  ∧ AuthContext.identity (AuthContext.calls AuthContext.initialState Sample.signUps)
    = Some ("p1", patient)
  ∧ ∃ p prefix,
      AuthContext.userProfile
        (AuthContext.calls AuthContext.initialState Sample.signUps) = Some p
      ∧ uid p = "p1" ∧ role p = patient
      ∧ email p = prefix +:+ "@meditrack.local".
Proof.
  assert (Hid : AuthContext.identity
                  (AuthContext.calls AuthContext.initialState Sample.signUps)
                = Some ("p1", patient)) by (vm_compute; reflexivity).
  split; [|split; [exact Hid|]].
  - apply (proj1 C10_only_clinic_addresses_get_an_identity).
    intros prefix Heq.
    assert (Hv : AuthContext.validateEmail "mallory@example.com" = true)
      by (apply endsWith_suffix; eauto).
    vm_compute in Hv. discriminate Hv.
  - exact (proj1 (proj2 C10_only_clinic_addresses_get_an_identity)
             Sample.signUps "p1" patient Hid).
Defined.

(** * Further properties of the code *)

(** ** Sessions *)

Lemma call_consistent (st : AuthContext.State) (c : AuthContext.Call) :
  sessionConsistent st → sessionConsistent (AuthContext.call st c).2.
Proof.
  intros (Hkey & Hacc & Hcur).
  destruct c as [email password firstName lastName role newUid now
                | email password | ]; cbn [AuthContext.call].
  - destruct (AuthContext.validateEmail email) eqn:Hv;
      [|by rewrite register_rejects].
    destruct (AuthContext.accounts st !! email) as [acc|] eqn:Ha;
      [by erewrite register_taken|].
    rewrite register_accepts by done. repeat split; simpl.
    + intros u p [[<- <-]|[_ Hl]]%lookup_insert_Some; [done | by apply Hkey].
    + intros e acc [[_ <-]|[_ Hl]]%lookup_insert_Some; simpl.
      * rewrite lookup_insert_eq. eauto.
      * destruct (Hacc _ _ Hl) as [q Hq].
        destruct (decide (newUid = AuthContext.accountUid acc)) as [->|Hne].
        -- rewrite lookup_insert_eq. eauto.
        -- rewrite lookup_insert_ne by done. eauto.
  - unfold AuthContext.login, AuthContext.signInWithEmailAndPassword.
    destruct (AuthContext.accounts st !! email) as [acc|] eqn:Ha; [|done].
    destruct (String.eqb _ _); [|done]. cbn [snd].
    destruct (Hacc _ _ Ha) as [q Hq].
    unfold AuthContext.onAuthStateChanged, AuthContext.fetchUserProfile.
    cbn [AuthContext.users]. rewrite Hq. repeat split; simpl; try done.
    by rewrite (Hkey _ _ Hq).
  - by repeat split.
Qed.

Lemma calls_consistent (cs : list AuthContext.Call) (st : AuthContext.State) :
  sessionConsistent st → sessionConsistent (AuthContext.calls st cs).
Proof.
  unfold AuthContext.calls. revert st.
  induction cs as [|c cs IH]; intros st Hst; simpl; [done|].
  apply IH. by apply call_consistent.
Qed.

Lemma initialState_consistent : sessionConsistent AuthContext.initialState.
Proof.
  repeat split; simpl; try done; intros ? ?; by rewrite lookup_empty.
Qed.






(** ** Lists and statistics of the dashboards *)

Lemma countWhere_split {A : Type} (f g : A → bool) (l : list A) :
  (∀ x, x ∈ l → f x = negb (g x)) →
  (countWhere f l + countWhere g l = length l)%nat.
Proof.
  induction l as [|x l IH]; intros Hfg; simpl; [done|].
  rewrite (Hfg x) by (apply elem_of_cons; auto).
  assert (Hrest : (countWhere f l + countWhere g l = length l)%nat)
    by (apply IH; intros y Hy; apply Hfg, elem_of_cons; auto).
  destruct (g x); simpl; lia.
Qed.

(** X5. The upcoming list and the past list of the patient's dashboard split
    the array: every appointment is on exactly one of them (upcoming when
    pending, confirmed or in progress; past when completed or cancelled),
    neither list holds anything else, and the 'Upcoming Appointments' and
    'Completed Visits' cards add up to the number of appointments. *)
Theorem X5_upcoming_and_past_split_the_array (apps : list (string * Appointment)) :
  (∀ apt, apt ∈ PatientDashboard.upcomingAppointments apps ↔
          apt ∈ apps ∧ (apt ∉ PatientDashboard.pastAppointments apps))
  ∧ (∀ apt, apt ∈ PatientDashboard.pastAppointments apps ↔
            apt ∈ apps ∧ (status apt.2 = completed ∨ status apt.2 = cancelled))
  ∧ (PatientDashboard.upcomingCard apps + PatientDashboard.completedVisitsCard apps
     = length apps)%nat.
Proof.
  unfold PatientDashboard.upcomingCard, PatientDashboard.completedVisitsCard,
    PatientDashboard.upcomingAppointments, PatientDashboard.pastAppointments.
  split; [|split].
  - intros apt. rewrite !elem_of_filter_bool, !includes_true, !elem_of_cons,
      !elem_of_nil.
    destruct (status apt.2); intuition congruence.
  - intros apt. rewrite elem_of_filter_bool, includes_true, !elem_of_cons,
      elem_of_nil. tauto.
  - rewrite !length_filter_countWhere. apply countWhere_split.
    intros apt _. unfold includes. by destruct (status apt.2).
Qed.

(** X6. On the doctor's dashboard every appointment is on exactly one of the
    pending, active and completed lists, except the cancelled ones, which
    are on none; so the three cards and the number of cancelled records add
    up to the number of appointments. *)
Theorem X6_doctor_lists_leave_out_the_cancelled
    (apps : list (string * Appointment)) :
  (∀ apt, apt ∈ apps →
     match status apt.2 with
     | pending =>
         apt ∈ DoctorDashboard.pendingAppointments apps
         ∧ (apt ∉ DoctorDashboard.activeAppointments apps)
         ∧ (apt ∉ DoctorDashboard.completedAppointments apps)
     | confirmed | in_progress =>
         (apt ∉ DoctorDashboard.pendingAppointments apps)
         ∧ apt ∈ DoctorDashboard.activeAppointments apps
         ∧ (apt ∉ DoctorDashboard.completedAppointments apps)
     | completed =>
         (apt ∉ DoctorDashboard.pendingAppointments apps)
         ∧ (apt ∉ DoctorDashboard.activeAppointments apps)
         ∧ apt ∈ DoctorDashboard.completedAppointments apps
     | cancelled =>
         (apt ∉ DoctorDashboard.pendingAppointments apps)
         ∧ (apt ∉ DoctorDashboard.activeAppointments apps)
         ∧ (apt ∉ DoctorDashboard.completedAppointments apps)
     end)
  ∧ (DoctorDashboard.pendingCount apps + DoctorDashboard.activeCount apps
     + DoctorDashboard.completedCount apps + cancelledCount apps
     = length apps)%nat.
Proof.
  unfold DoctorDashboard.pendingCount, DoctorDashboard.activeCount,
    DoctorDashboard.completedCount, DoctorDashboard.pendingAppointments,
    DoctorDashboard.activeAppointments, DoctorDashboard.completedAppointments,
    cancelledCount.
  split.
  - intros apt Hin.
    destruct (status apt.2) eqn:Hs; unfold not;
      rewrite !elem_of_filter_bool; unfold includes; simpl; rewrite Hs;
      repeat split; try done; try (intros [_ Hb]; by vm_compute in Hb).
  - rewrite !length_filter_countWhere. unfold includes.
    induction apps as [|[id a] apps IH]; simpl; [done|].
    destruct (status a); simpl; lia.
Qed.

Lemma ratingsPresent_range (apps : list (string * Appointment)) (lo hi : Z) :
  (∀ apt f, apt ∈ apps → feedback apt.2 = Some f → lo ≤ rating f ≤ hi) →
  Forall (λ r, lo ≤ r ≤ hi) (ratingsPresent apps).
Proof.
  unfold ratingsPresent. induction apps as [|[id a] apps IH]; intros Hr; simpl.
  - constructor.
  - assert (Hrest : Forall (λ r, lo ≤ r ≤ hi)
                      (omap (λ apt, rating <$> feedback apt.2) apps))
      by (apply IH; intros apt f Hin; apply Hr, elem_of_cons; auto).
    destruct (feedback a) as [f|] eqn:Hf; simpl; [|done].
    constructor; [|done].
    apply (Hr (id, a) f); [apply elem_of_cons; auto | done].
Qed.

Lemma sumRatings_range (l : list Z) (lo hi : Z) :
  Forall (λ r, lo ≤ r ≤ hi) l →
  lo * Z.of_nat (length l) ≤ sumRatings l ≤ hi * Z.of_nat (length l).
Proof.
  induction 1 as [|r l Hr _ IH]; simpl length; simpl sumRatings; [lia|].
  rewrite Nat2Z.inj_succ. lia.
Qed.

(** X7. The average rating lies between the smallest and the largest rating
    it is taken over: when every present rating is between [lo] and [hi] and
    at least one record has feedback, so is [averageRating]; with stored
    ratings from 1 to 5 the card shows a value from 1 to 5. *)
Theorem X7_average_within_the_ratings (apps : list (string * Appointment))
    (lo hi : Z) :
  (∀ apt f, apt ∈ apps → feedback apt.2 = Some f → lo ≤ rating f ≤ hi) →
  DoctorDashboard.appointmentsWithFeedback apps ≠ [] →
  Qle (inject_Z lo) (DoctorDashboard.averageRating apps)
  ∧ Qle (DoctorDashboard.averageRating apps) (inject_Z hi).
Proof.
  intros Hrange Hsome. rewrite averageRating_mean.
  pose proof (sumRatings_range _ lo hi (ratingsPresent_range apps lo hi Hrange))
    as Hsum.
  assert (Hne : ratingsPresent apps ≠ []).
  { rewrite <- ratings_of_appointmentsWithFeedback.
    by destruct (DoctorDashboard.appointmentsWithFeedback apps). }
  destruct (ratingsPresent apps) as [|r l] eqn:Hl; [done|].
  unfold arithmeticMean.
  assert (Hpos : Qlt 0 (inject_Z (Z.of_nat (length (r :: l)))))
    by (rewrite <- (Zlt_Qlt 0); simpl length; lia).
  split.
  - apply Qle_shift_div_l; [done|].
    rewrite <- inject_Z_mult, <- Zle_Qle. lia.
  - apply Qle_shift_div_r; [done|].
    rewrite <- inject_Z_mult, <- Zle_Qle. lia.
Qed.

(** The ratings 5 and 3 give an average between 1 and 5. *)
Lemma X7_witness :
  Qle (inject_Z 1) (DoctorDashboard.averageRating Sample.fiveAndThree)
  ∧ Qle (DoctorDashboard.averageRating Sample.fiveAndThree) (inject_Z 5).
Proof.
  apply X7_average_within_the_ratings.
  - intros apt f. unfold Sample.fiveAndThree.
    rewrite !elem_of_cons, elem_of_nil.
    intros [->|[->|[]]]; simpl; intros [= <-]; simpl; lia.
  - by vm_compute.
Defined.

(** ** White space *)

Lemma append_cons (c : Ascii.ascii) (a b : string) :
  String c a +:+ b = String c (a +:+ b).
Proof. reflexivity. Qed.

Lemma append_empty_r (s : string) : s +:+ EmptyString = s.
Proof. induction s as [|c s IH]; [done|]. by rewrite append_cons, IH. Qed.

Lemma append_assoc (a b c : string) : (a +:+ b) +:+ c = a +:+ (b +:+ c).
Proof. induction a as [|x a IH]; [done|]. by rewrite !append_cons, IH. Qed.

Lemma rev_app_append (a b : string) :
  String.rev_app a b = String.rev a +:+ b.
Proof.
  unfold String.rev. revert b. induction a as [|c a IH]; intros b; [done|].
  cbn [String.rev_app]. rewrite (IH (String c b)), (IH (String c EmptyString)).
  by rewrite append_assoc.
Qed.

Lemma rev_cons (c : Ascii.ascii) (s : string) :
  String.rev (String c s) = String.rev s +:+ String c EmptyString.
Proof. unfold String.rev at 1. cbn [String.rev_app]. apply rev_app_append. Qed.

Lemma rev_append (a b : string) :
  String.rev (a +:+ b) = String.rev b +:+ String.rev a.
Proof.
  induction a as [|x a IH].
  - change (String.rev b = String.rev b +:+ EmptyString).
    by rewrite append_empty_r.
  - by rewrite append_cons, !rev_cons, IH, append_assoc.
Qed.

Lemma rev_rev (s : string) : String.rev (String.rev s) = s.
Proof.
  induction s as [|c s IH]; [done|]. by rewrite rev_cons, rev_append, IH.
Qed.

Lemma rev_empty (s : string) : String.rev s = EmptyString → s = EmptyString.
Proof. intros H. by rewrite <- (rev_rev s), H. Qed.

Lemma allWhiteSpace_append (a b : string) :
  allWhiteSpace (a +:+ b) = allWhiteSpace a && allWhiteSpace b.
Proof.
  induction a as [|x a IH]; [done|]. rewrite append_cons.
  cbn [allWhiteSpace]. rewrite IH. by destruct (isWhiteSpace x).
Qed.

Lemma allWhiteSpace_rev (s : string) :
  allWhiteSpace (String.rev s) = allWhiteSpace s.
Proof.
  induction s as [|c s IH]; [done|].
  rewrite rev_cons, allWhiteSpace_append, IH. cbn [allWhiteSpace].
  destruct (allWhiteSpace s), (isWhiteSpace c); done.
Qed.

(** [trimStart] removes a prefix of white space and stops at the first other
    character. *)
Lemma trimStart_prefix (s : string) :
  ∃ l, s = l +:+ trimStart s ∧ allWhiteSpace l = true.
Proof.
  induction s as [|c s (l & Hs & Hl)]; [by exists EmptyString|].
  cbn [trimStart]. destruct (isWhiteSpace c) eqn:Hc.
  - exists (String c l). rewrite append_cons. cbn [allWhiteSpace].
    rewrite Hc, Hl. split; [by f_equal | done].
  - by exists EmptyString.
Qed.

Lemma trimStart_first (s : string) (c : Ascii.ascii) :
  firstChar (trimStart s) = Some c → isWhiteSpace c = false.
Proof.
  induction s as [|x s IH]; [done|]. cbn [trimStart].
  destruct (isWhiteSpace x) eqn:Hx; [done|]. by intros [= <-].
Qed.

Lemma trimStart_fixed (s : string) :
  (∀ c, firstChar s = Some c → isWhiteSpace c = false) → trimStart s = s.
Proof.
  destruct s as [|c s]; [done|]. intros H. cbn [trimStart]. by rewrite (H c).
Qed.

Lemma trimStart_blank (s : string) :
  trimStart s = EmptyString ↔ allWhiteSpace s = true.
Proof.
  induction s as [|c s IH]; [done|]. cbn [trimStart allWhiteSpace].
  destruct (isWhiteSpace c); [done|]. split; intros; done.
Qed.

Lemma trimEnd_suffix (s : string) :
  ∃ r, s = trimEnd s +:+ r ∧ allWhiteSpace r = true.
Proof.
  destruct (trimStart_prefix (String.rev s)) as (l & Hs & Hl).
  exists (String.rev l). split; [|by rewrite allWhiteSpace_rev].
  unfold trimEnd. rewrite <- rev_append, <- Hs. by rewrite rev_rev.
Qed.

Lemma firstChar_append (a b : string) (c : Ascii.ascii) :
  firstChar a = Some c → firstChar (a +:+ b) = Some c.
Proof. by destruct a. Qed.

(** What [trim] returns: the string without a prefix and a suffix of white
    space, neither starting nor ending with white space. *)
Lemma trim_shape (s : string) :
  (∃ l r, s = l +:+ trim s +:+ r
          ∧ allWhiteSpace l = true ∧ allWhiteSpace r = true)
  ∧ (∀ c, firstChar (trim s) = Some c → isWhiteSpace c = false)
  ∧ (∀ c, lastChar (trim s) = Some c → isWhiteSpace c = false).
Proof.
  unfold trim.
  destruct (trimStart_prefix s) as (l & Hs & Hl).
  destruct (trimEnd_suffix (trimStart s)) as (r & Ht & Hr).
  split; [|split].
  - exists l, r. rewrite <- Ht. done.
  - intros c Hc. apply (trimStart_first s).
    rewrite Ht. by apply firstChar_append.
  - intros c. unfold lastChar, trimEnd. rewrite rev_rev.
    apply trimStart_first.
Qed.

Lemma trim_fixed (s : string) :
  (∀ c, firstChar s = Some c → isWhiteSpace c = false) →
  (∀ c, lastChar s = Some c → isWhiteSpace c = false) →
  trim s = s.
Proof.
  intros Hfirst Hlast. unfold trim. rewrite (trimStart_fixed s Hfirst).
  unfold trimEnd. rewrite (trimStart_fixed (String.rev s) Hlast). apply rev_rev.
Qed.

Lemma trim_blank (s : string) :
  trim s = EmptyString ↔ allWhiteSpace s = true.
Proof.
  split.
  - intros Hempty. destruct (trim_shape s) as ((l & r & Hs & Hl & Hr) & _).
    rewrite Hs, Hempty, !allWhiteSpace_append, Hl, Hr. done.
  - intros Hblank. unfold trim.
    by rewrite (proj2 (trimStart_blank s) Hblank).
Qed.




(** ** The rating form, as it behaves *)

Lemma updateFeedback_old_entry (st : PatientDashboard.State) (id : string)
    (field : PatientDashboard.Field) (value : PatientDashboard.Value) :
  PatientDashboard.feedbackData
    (PatientDashboard.updateFeedback st id field value) !! id
  = Some (default (mkFeedback 0 EmptyString)
            (PatientDashboard.feedbackData st !! id)).
Proof.
  rewrite updateFeedback_entry.
  destruct (PatientDashboard.feedbackData st !! id) as [[r c]|]; simpl; [|done].
  destruct (Z.eqb_spec r 0) as [->|_]; by destruct c.
Qed.

(** X10. [updateFeedback] does not use what was entered: whatever field and
    value it is called with, the entry it stores has the rating and the
    comment the form had before (0 and the empty text for a fresh form).
    The Submit button, disabled on rating 0, therefore keeps its state, and
    the entries of other appointments are untouched. *)
Theorem X10_updateFeedback_keeps_the_old_entry (st : PatientDashboard.State)
    (id : string) (field : PatientDashboard.Field) (value : PatientDashboard.Value) :
  (∀ field' value',
     PatientDashboard.updateFeedback st id field value
     = PatientDashboard.updateFeedback st id field' value')
  ∧ PatientDashboard.feedbackData
      (PatientDashboard.updateFeedback st id field value) !! id
    = Some (default (mkFeedback 0 EmptyString)
              (PatientDashboard.feedbackData st !! id))
  ∧ PatientDashboard.submitDisabled
      (PatientDashboard.updateFeedback st id field value) id
    = PatientDashboard.submitDisabled st id
  ∧ (∀ id', id' ≠ id →
       PatientDashboard.feedbackData
         (PatientDashboard.updateFeedback st id field value) !! id'
       = PatientDashboard.feedbackData st !! id').
Proof.
  pose proof (updateFeedback_old_entry st id field value) as Hentry.
  split; [|split; [exact Hentry|split]].
  - intros field' value'. unfold PatientDashboard.updateFeedback.
    by destruct field, field'.
  - unfold PatientDashboard.submitDisabled. rewrite Hentry.
    by destruct (PatientDashboard.feedbackData st !! id).
  - intros id' Hne. by apply updateFeedback_other.
Qed.

Lemma zero_drafts_no_submit (w : World) (p id : string) :
  draftsAllZero w → step w (ClickSubmitFeedback p id) = None.
Proof.
  intros Hzero. simpl.
  assert (Hdis : PatientDashboard.submitDisabled (patientScreen w p) id = true).
  { unfold PatientDashboard.submitDisabled.
    destruct (PatientDashboard.feedbackData (patientScreen w p) !! id)
      as [f|] eqn:Hf; [|done].
    apply patientScreen_entry in Hf as (st & Hp & Hf).
    by rewrite (Hzero _ _ _ _ Hp Hf). }
  rewrite Hdis. by rewrite andb_false_r.
Qed.

Lemma withPatientScreen_zero (w : World) (db : gmap string Appointment)
    (p : string) (st : PatientDashboard.State) :
  draftsAllZero w →
  (∀ id f, PatientDashboard.feedbackData st !! id = Some f → rating f = 0) →
  draftsAllZero (withPatientScreen w db p st).
Proof.
  intros Hzero Hst p0 st0 id0 f0. simpl.
  intros [[<- <-]|[_ Hl]]%lookup_insert_Some; [apply Hst | by eapply Hzero].
Qed.

Lemma updateFeedback_zero (w : World) (p id : string)
    (field : PatientDashboard.Field) (value : PatientDashboard.Value)
    (id' : string) (f : Feedback) :
  draftsAllZero w →
  PatientDashboard.feedbackData
    (PatientDashboard.updateFeedback (patientScreen w p) id field value) !! id'
  = Some f →
  rating f = 0.
Proof.
  intros Hzero Hf.
  assert (Hold : ∀ i g, PatientDashboard.feedbackData (patientScreen w p) !! i
                        = Some g → rating g = 0).
  { intros i g (st & Hp & Hg)%patientScreen_entry. by eapply Hzero. }
  destruct (decide (id = id')) as [<-|Hne].
  - rewrite updateFeedback_old_entry in Hf.
    injection Hf as <-.
    destruct (PatientDashboard.feedbackData (patientScreen w p) !! id)
      as [g|] eqn:Hg; simpl; [by eapply Hold | done].
  - rewrite updateFeedback_other in Hf by done. by eapply Hold.
Qed.

Lemma step_zero_drafts (w w' : World) (e : Event) :
  draftsAllZero w → step w e = Some w' → draftsAllZero w'.
Proof.
  intros Hzero Hstep.
  destruct e; try (by rewrite zero_drafts_no_submit in Hstep);
    simpl in Hstep;
    try (case_match; [|done]; injection Hstep as <-; exact Hzero).
  - case_match; [|done].
    destruct (DoctorDashboard.handlePrescriptionSubmit _ _ _) as [[? ?] ?].
    injection Hstep as <-. exact Hzero.
  - case_match; [|done]. injection Hstep as <-.
    apply withPatientScreen_zero; [done|]. intros ? ?.
    by apply updateFeedback_zero.
  - case_match; [|done]. injection Hstep as <-.
    apply withPatientScreen_zero; [done|]. intros ? ?.
    by apply updateFeedback_zero.
Qed.

Lemma feedbackUntouched_same_store (w w' : World) :
  store w' = store w → feedbackUntouched w w'.
Proof. intros Heq id. rewrite Heq. by destruct (store w !! id). Qed.

Lemma feedbackUntouched_refl (w : World) : feedbackUntouched w w.
Proof. by apply feedbackUntouched_same_store. Qed.

Lemma feedbackUntouched_trans (w1 w2 w3 : World) :
  feedbackUntouched w1 w2 → feedbackUntouched w2 w3 → feedbackUntouched w1 w3.
Proof.
  intros H12 H23 id. specialize (H12 id). specialize (H23 id).
  destruct (store w1 !! id), (store w2 !! id), (store w3 !! id);
    try done; congruence.
Qed.

Lemma feedbackUntouched_insert (w w' : World) (id : string) (a' : Appointment) :
  store w' = <[id := a']> (store w) →
  match store w !! id with
  | Some a => feedback a' = feedback a
  | None => feedback a' = None
  end →
  feedbackUntouched w w'.
Proof.
  intros Heq Hid id0. rewrite Heq.
  destruct (decide (id = id0)) as [<-|Hne].
  - rewrite lookup_insert_eq. by destruct (store w !! id).
  - rewrite lookup_insert_ne by done. by destruct (store w !! id0).
Qed.

Lemma transition_feedbackUntouched (w w' : World) :
  draftsAllZero w → transition w w' → feedbackUntouched w w'.
Proof.
  intros Hzero Ht. destruct Ht.
  - apply feedbackUntouched_refl.
  - eapply feedbackUntouched_insert; [done|]. by rewrite H.
  - eapply feedbackUntouched_insert; [done|]. by rewrite H.
  - by apply feedbackUntouched_same_store.
  - eapply feedbackUntouched_insert; [done|]. by rewrite H.
  - by apply feedbackUntouched_same_store.
  - apply patientScreen_entry in H3 as (st & Hp & Hf).
    by destruct H4; eapply Hzero.
Qed.

(** X11. Through the rating form no feedback can be submitted.  From a
    world in which no form holds a chosen star (the initial world, or any
    world where nobody has touched a form), after every sequence of events
    no form holds a chosen star, so the Submit button is disabled for every
    patient and appointment and the sequence contains no submit; every
    record that existed has the feedback it had, and every record booked
    since has none. *)
Theorem X11_no_feedback_through_the_form (w w' : World) (es : list Event) :
  draftsAllZero w →
  run w es = Some w' →
  draftsAllZero w'
  ∧ (∀ p id, step w' (ClickSubmitFeedback p id) = None)
  ∧ (∀ p id, ClickSubmitFeedback p id ∉ es)
  ∧ feedbackUntouched w w'.
Proof.
  revert w. induction es as [|e es IH]; intros w Hzero; simpl.
  - intros [= <-]. repeat split; try done.
    + intros p id. by apply zero_drafts_no_submit.
    + intros p id. apply not_elem_of_nil.
    + apply feedbackUntouched_refl.
  - destruct (step w e) as [w1|] eqn:He; [|done]. intros Hrun.
    pose proof (step_zero_drafts _ _ _ Hzero He) as Hzero1.
    destruct (IH w1 Hzero1 Hrun) as (Hz & Hno & Hnotin & Hkept).
    repeat split; try done.
    + intros p id [Heq|Hin]%elem_of_cons; [subst e|by eapply Hnotin].
      by rewrite zero_drafts_no_submit in He.
    + eapply feedbackUntouched_trans; [|done].
      apply transition_feedbackUntouched; [done | by eapply step_transition].
Qed.

(** After the consultation Alice clicks the fifth star and types a comment:
    the form still holds rating 0 and the empty comment, Submit stays
    disabled, and the completed visit has no feedback. *)
Lemma X11_witness :
  run Sample.afterConsultation Scenario.fillingIn = Some Scenario.afterFillingIn
  ∧ PatientDashboard.feedbackData (patientScreen Scenario.afterFillingIn "p1")
      !! "a1" = Some (mkFeedback 0 EmptyString)
  ∧ step Scenario.afterFillingIn (ClickSubmitFeedback "p1" "a1") = None
  ∧ feedbackUntouched Sample.afterConsultation Scenario.afterFillingIn.
Proof.
  assert (Hrun : run Sample.afterConsultation Scenario.fillingIn
                 = Some Scenario.afterFillingIn) by (by vm_compute).
  assert (Hzero : draftsAllZero Sample.afterConsultation).
  { intros p st id f Hp. by vm_compute in Hp. }
  destruct (X11_no_feedback_through_the_form Sample.afterConsultation
              Scenario.afterFillingIn Scenario.fillingIn Hzero Hrun)
    as (_ & Hno & _ & Hkept).
  split; [exact Hrun|]. split; [by vm_compute|]. split; [apply Hno | exact Hkept].
Defined.

(** ** Booking and the daily cap *)

Lemma countWhere_Permutation {A : Type} (cond : A → bool) (l l' : list A) :
  l ≡ₚ l' → countWhere cond l = countWhere cond l'.
Proof.
  induction 1 as [|x l l' _ IH|x y l|l1 l2 l3 _ IH1 _ IH2]; simpl; lia.
Qed.

Lemma snapshot_size_insert {A : Type} (coll : gmap string A) (where_ : A → bool)
    (id : string) (d : A) :
  coll !! id = None →
  length (snapshot (<[id := d]> coll) where_)
  = ((if where_ d then 1 else 0) + length (snapshot coll where_))%nat.
Proof.
  intros Hfresh. unfold snapshot. rewrite !length_filter_countWhere.
  by rewrite (countWhere_Permutation _ _ _ (map_to_list_insert coll id d Hfresh)).
Qed.

Lemma snapshot_size_update {A : Type} (coll : gmap string A) (where_ : A → bool)
    (id : string) (d d' : A) :
  coll !! id = Some d → where_ d' = where_ d →
  length (snapshot (<[id := d']> coll) where_) = length (snapshot coll where_).
Proof.
  intros Hl Hsame.
  rewrite <- (insert_delete_eq coll id d').
  rewrite <- (insert_id coll id d Hl) at 2.
  rewrite <- (insert_delete_eq coll id d).
  rewrite !snapshot_size_insert by apply lookup_delete_eq.
  by rewrite Hsame.
Qed.

Lemma booked_below_cap (db : gmap string Appointment)
    (userProfile : UserProfile) (doctors : list UserProfile) (today : string)
    (form : BookAppointment.Form) (newId : string) (now : Z) :
  (BookAppointment.handleSubmit db userProfile doctors today form newId now).1
  = BookAppointment.Booked →
  (BookAppointment.todayAppointments db userProfile today < 2)%nat
  ∧ String.ltb (BookAppointment.selectedDate form) today = false.
Proof.
  unfold BookAppointment.handleSubmit.
  destruct (Nat.leb_spec 2 (BookAppointment.todayAppointments db userProfile today));
    [done|].
  destruct (_ || _); [done|]. by destruct (String.ltb _ _).
Qed.

Lemma booking_count (db : gmap string Appointment)
    (userProfile : UserProfile) (doctors : list UserProfile) (today : string)
    (form : BookAppointment.Form) (newId : string) (now : Z)
    (other : UserProfile) (day : string) :
  db !! newId = None →
  (BookAppointment.handleSubmit db userProfile doctors today form newId now).1
  = BookAppointment.Booked →
  BookAppointment.todayAppointments
    (BookAppointment.handleSubmit db userProfile doctors today form newId now).2
    other day
  = ((if bool_decide (uid userProfile = uid other
                      ∧ BookAppointment.selectedDate form = day)
      then 1 else 0)
     + BookAppointment.todayAppointments db other day)%nat.
Proof.
  intros Hfresh Hbooked.
  destruct (handleSubmit_store db userProfile doctors today form newId now)
    as [[Hno _]|[_ (a & Heq & _ & _ & _ & Hp & Hd)]]; [done|].
  rewrite Heq. unfold BookAppointment.todayAppointments.
  rewrite snapshot_size_insert by done. rewrite Hp, Hd.
  repeat case_bool_decide; simpl; try done; tauto.
Qed.

(** X12. A booking counts once, for its own patient and date: for every
    patient and day, the number of that patient's records dated that day
    (the count the daily cap reads) grows by one when the submit is booked,
    the patient is the caller and the day is the booked date, and is
    unchanged otherwise, whatever the outcome of the submit. *)
Theorem X12_booking_counts_for_its_patient_and_date
    (db : gmap string Appointment)
    (userProfile : UserProfile) (doctors : list UserProfile) (today : string)
    (form : BookAppointment.Form) (newId : string) (now : Z)
    (other : UserProfile) (day : string) :
  db !! newId = None →
  let result :=
    BookAppointment.handleSubmit db userProfile doctors today form newId now in
  BookAppointment.todayAppointments result.2 other day
  = ((if bool_decide (result.1 = BookAppointment.Booked
                      ∧ uid userProfile = uid other
                      ∧ BookAppointment.selectedDate form = day)
      then 1 else 0)
     + BookAppointment.todayAppointments db other day)%nat.
Proof.
  intros Hfresh result.
  destruct (decide (result.1 = BookAppointment.Booked)) as [Hbooked|Hnot].
  - subst result. rewrite (booking_count _ _ _ _ _ _ _ other day Hfresh Hbooked).
    repeat case_bool_decide; try done; tauto.
  - destruct (handleSubmit_store db userProfile doctors today form newId now)
      as [[_ Hsame]|[Hbooked _]]; [|done].
    fold result in Hsame. rewrite Hsame.
    rewrite bool_decide_eq_false_2 by tauto. done.
Qed.

(** Alice's second booking for 1 June raises her count for that day from 1
    to 2 and leaves Bob's count at 0. *)
Lemma X12_witness :
  let db' :=
    (BookAppointment.handleSubmit Sample.oneOnFirstOfJune Sample.alice
       [Sample.drGrey] "2025-06-01" (Sample.request "2025-06-01" "10:00")
       "a2" 3000).2 in
  BookAppointment.todayAppointments db' Sample.alice "2025-06-01"
  = (1 + BookAppointment.todayAppointments Sample.oneOnFirstOfJune Sample.alice
           "2025-06-01")%nat
  ∧ BookAppointment.todayAppointments db' Sample.bob "2025-06-01"
    = (0 + BookAppointment.todayAppointments Sample.oneOnFirstOfJune Sample.bob
             "2025-06-01")%nat.
Proof.
  split.
  - by apply (X12_booking_counts_for_its_patient_and_date
                Sample.oneOnFirstOfJune Sample.alice [Sample.drGrey] "2025-06-01"
                (Sample.request "2025-06-01" "10:00") "a2" 3000 Sample.alice
                "2025-06-01").
  - by apply (X12_booking_counts_for_its_patient_and_date
                Sample.oneOnFirstOfJune Sample.alice [Sample.drGrey] "2025-06-01"
                (Sample.request "2025-06-01" "10:00") "a2" 3000 Sample.bob
                "2025-06-01").
Defined.

(** ** What an event changes in the store *)

Lemma sameVisit_mergeStatus (s : Status) (a : Appointment) :
  sameVisit a (mergeStatus s a).
Proof. by repeat split. Qed.

Lemma sameVisit_mergeCompleted (p : Prescription) (a : Appointment) :
  sameVisit a (mergeCompleted p a).
Proof. by repeat split. Qed.

Lemma sameVisit_mergeFeedback (f : Feedback) (a : Appointment) :
  sameVisit a (mergeFeedback f a).
Proof. by repeat split. Qed.

(** An event leaves the store alone, or books one record under a fresh id,
    or rewrites one record of the acting user, keeping what identifies the
    visit. *)
Lemma step_store_cases (w w' : World) (e : Event) :
  step w e = Some w' →
  store w' = store w
  ∨ (∃ userProfile doctors today form newId now,
       e = SubmitBooking userProfile doctors today form newId now
       ∧ store w !! newId = None
       ∧ BookAppointment.handleSubmit (store w) userProfile doctors today form
           newId now = (BookAppointment.Booked, store w'))
  ∨ (∃ id a a',
       store w !! id = Some a ∧ store w' = <[id := a']> (store w)
       ∧ sameVisit a a' ∧ ownRecord e a).
Proof.
  intros Hstep. destruct e; simpl in Hstep.
  - case_match eqn:Hg; [|done]. injection Hstep as <-. simpl.
    apply andb_prop in Hg as [[Hfresh%bool_decide_eq_true _]%andb_prop _].
    destruct (BookAppointment.handleSubmit (store w) userProfile doctors today
                form newId now) as [outcome db'] eqn:Hh.
    pose proof (handleSubmit_store (store w) userProfile doctors today form
                  newId now) as Hs. rewrite Hh in Hs. simpl in Hs.
    destruct Hs as [[_ ->]|[-> _]]; [by left|].
    right. left. by exists userProfile, doctors, today, form, newId, now.
  - case_match eqn:Hg; [|done]. injection Hstep as <-.
    apply acceptRendered_true in Hg as (a & Hl & Hd & _).
    right. right. exists id, a, (mergeStatus confirmed a). simpl.
    rewrite (updateAppointmentStatus_writes _ _ _ _ Hl).
    by repeat split.
  - case_match eqn:Hg; [|done]. injection Hstep as <-.
    apply acceptRendered_true in Hg as (a & Hl & Hd & _).
    right. right. exists id, a, (mergeStatus cancelled a). simpl.
    rewrite (updateAppointmentStatus_writes _ _ _ _ Hl).
    by repeat split.
  - case_match eqn:Hg; [|done]. injection Hstep as <-.
    apply startRendered_true in Hg as (a & Hl & Hd & _).
    right. right. exists id, a, (mergeStatus in_progress a). simpl.
    rewrite (updateAppointmentStatus_writes _ _ _ _ Hl).
    by repeat split.
  - case_match; [|done]. injection Hstep as <-. by left.
  - case_match; [|done]. injection Hstep as <-. by left.
  - case_match eqn:Hg; [|done].
    apply prescriptionFormRendered_true in Hg as (a & Hl & Hd & _).
    destruct (truthy (trim (medicine
      (DoctorDashboard.prescriptionData (doctorScreen w d))))) eqn:Hm.
    + rewrite (handlePrescriptionSubmit_writes _ _ _ _ Hm Hl) in Hstep.
      injection Hstep as <-. right. right.
      exists id, a, (mergeCompleted
        (DoctorDashboard.prescriptionData (doctorScreen w d)) a).
      by repeat split.
    + rewrite (handlePrescriptionSubmit_blank _ _ _ Hm) in Hstep.
      injection Hstep as <-. by left.
  - case_match; [|done]. injection Hstep as <-. by left.
  - case_match; [|done]. injection Hstep as <-. by left.
  - case_match; [|done]. injection Hstep as <-. by left.
  - case_match eqn:Hg; [|done].
    apply andb_prop in Hg as [Hform Hen%negb_true_iff].
    apply feedbackFormRendered_true in Hform as (a & Hl & Hp & _).
    unfold PatientDashboard.submitDisabled in Hen.
    destruct (PatientDashboard.feedbackData (patientScreen w p) !! id)
      as [f|] eqn:Hentry; [|done].
    apply Z.eqb_neq in Hen.
    rewrite (handleFeedbackSubmit_writes _ _ _ _ _ Hentry Hen Hl) in Hstep.
    injection Hstep as <-. right. right.
    exists id, a, (mergeFeedback f a). by repeat split.
Qed.

Lemma todayAppointments_update (db : gmap string Appointment) (id : string)
    (a a' : Appointment) (other : UserProfile) (day : string) :
  db !! id = Some a → sameVisit a a' →
  BookAppointment.todayAppointments (<[id := a']> db) other day
  = BookAppointment.todayAppointments db other day.
Proof.
  intros Hl (_ & _ & Hp & _ & Hd & _). unfold BookAppointment.todayAppointments.
  apply (snapshot_size_update db _ id a a' Hl). by rewrite Hp, Hd.
Qed.

Lemma step_keeps_cap (w w' : World) (e : Event) (day : string) :
  submittedOn day e →
  (∀ other, BookAppointment.todayAppointments (store w) other day ≤ 2)%nat →
  step w e = Some w' →
  (∀ other, BookAppointment.todayAppointments (store w') other day ≤ 2)%nat.
Proof.
  intros Hday Hcap Hstep other.
  destruct (step_store_cases w w' e Hstep)
    as [->|[(up & doctors & today & form & newId & now & -> & Hfresh & Hh)
           |(id & a & a' & Hl & -> & Hsame & _)]].
  - apply Hcap.
  - simpl in Hday. subst today.
    assert (Hbooked : (BookAppointment.handleSubmit (store w) up doctors day
                         form newId now).1 = BookAppointment.Booked)
      by (by rewrite Hh).
    pose proof (booking_count (store w) up doctors day form newId now other day
                  Hfresh Hbooked) as Hcount.
    rewrite Hh in Hcount. simpl in Hcount. rewrite Hcount.
    destruct (booked_below_cap _ _ _ _ _ _ _ Hbooked) as [Hbelow _].
    case_bool_decide as Hwho; simpl; [|apply Hcap].
    destruct Hwho as [Hwho _].
    unfold BookAppointment.todayAppointments in *. rewrite <- Hwho. lia.
  - rewrite (todayAppointments_update _ _ _ _ _ _ Hl Hsame). apply Hcap.
Qed.



Lemma todayAppointments_le_size (db : gmap string Appointment)
    (other : UserProfile) (day : string) :
  (BookAppointment.todayAppointments db other day ≤ size db)%nat.
Proof.
  unfold BookAppointment.todayAppointments, snapshot.
  rewrite <- length_map_to_list, length_filter_countWhere.
  induction (map_to_list db) as [|x l IH]; simpl; [done|].
  destruct (_ && _); simpl; lia.
Qed.



(** ** What never changes *)

Lemma sameVisit_refl (a : Appointment) : sameVisit a a.
Proof. by repeat split. Qed.

Lemma sameVisit_trans (a b c : Appointment) :
  sameVisit a b → sameVisit b c → sameVisit a c.
Proof. unfold sameVisit. intuition congruence. Qed.

Lemma step_keeps_records (w w' : World) (e : Event) (id : string)
    (a : Appointment) :
  step w e = Some w' → store w !! id = Some a →
  (∃ a', store w' !! id = Some a' ∧ sameVisit a a')
  ∧ (size (store w) ≤ size (store w'))%nat.
Proof.
  intros Hstep Hl.
  destruct (step_store_cases w w' e Hstep)
    as [->|[(up & doctors & today & form & newId & now & -> & Hfresh & Hh)
           |(id0 & a0 & a0' & Hl0 & -> & Hsame & _)]].
  - split; [|done]. exists a. split; [done | apply sameVisit_refl].
  - pose proof (handleSubmit_store (store w) up doctors today form newId now)
      as Hs. rewrite Hh in Hs. simpl in Hs.
    destruct Hs as [[Hno _]|[_ (a0 & -> & _)]]; [done|]. split.
    + exists a. rewrite lookup_insert_ne by congruence.
      split; [done | apply sameVisit_refl].
    + rewrite map_size_insert_None by done. lia.
  - split.
    + destruct (decide (id0 = id)) as [->|Hne].
      * rewrite lookup_insert_eq. rewrite Hl in Hl0. injection Hl0 as <-. eauto.
      * exists a. rewrite lookup_insert_ne by done.
        split; [done | apply sameVisit_refl].
    + rewrite map_size_insert_Some by eauto. done.
Qed.

(** X15. No event removes a record or changes what identifies a visit:
    after every sequence of events a record that existed still exists under
    its id with the same doctor, patient, display names, date, time, note
    and creation time (only status, prescription and feedback can differ),
    and the store has at least as many records as before. *)
Theorem X15_records_are_kept_and_keep_their_identity (w w' : World)
    (es : list Event) (id : string) (a : Appointment) :
  run w es = Some w' →
  store w !! id = Some a →
  (∃ a', store w' !! id = Some a' ∧ sameVisit a a')
  ∧ (size (store w) ≤ size (store w'))%nat.
Proof.
  revert w a. induction es as [|e es IH]; intros w a; simpl.
  - intros [= <-] Hl. split; [|done]. exists a. split; [done | apply sameVisit_refl].
  - destruct (step w e) as [w1|] eqn:He; [|done]. intros Hrun Hl.
    destruct (step_keeps_records w w1 e id a He Hl) as [(a1 & Hl1 & Hs1) Hsize1].
    destruct (IH w1 a1 Hrun Hl1) as [(a' & Hl' & Hs') Hsize'].
    split; [|lia]. exists a'. split; [done | by eapply sameVisit_trans].
Qed.

(** The consultation changes status and prescription of "a1", nothing
    else. *)
Lemma X15_witness :
  run Sample.waitingRoom Sample.consultation = Some Sample.afterConsultation
  ∧ ∃ a', store Sample.afterConsultation !! "a1" = Some a'
          ∧ sameVisit Sample.pendingVisit a'.
Proof.
  assert (Hrun : run Sample.waitingRoom Sample.consultation
                 = Some Sample.afterConsultation) by (by vm_compute).
  split; [exact Hrun|].
  apply (X15_records_are_kept_and_keep_their_identity Sample.waitingRoom
           Sample.afterConsultation Sample.consultation "a1"
           Sample.pendingVisit Hrun).
  by vm_compute.
Defined.

Lemma step_keeps_prescription (w w' : World) (e : Event) (id : string)
    (a : Appointment) (p : Prescription) :
  selectionsInProgress w → prescribedIffCompleted (store w) →
  step w e = Some w' →
  store w !! id = Some a → prescription a = Some p →
  ∃ a', store w' !! id = Some a' ∧ prescription a' = Some p.
Proof.
  intros Hsel HI2 Hstep Hl Hp.
  destruct (step_keeps_records w w' e id a Hstep Hl) as [(a' & Hl' & _) _].
  exists a'. split; [done|].
  destruct (decide (prescription a' = prescription a)) as [->|Hne]; [done|].
  exfalso.
  destruct (step_prescription_writer w w' e id a a' Hstep Hl Hl' Hne) as [d ->].
  simpl in Hstep. case_match eqn:Hg; [|done].
  apply prescriptionFormRendered_true in Hg as (a0 & Hl0 & _ & Hact & Hs).
  rewrite Hl in Hl0. injection Hl0 as <-.
  pose proof (selected_in_progress w d id a Hsel Hs Hl Hact) as Hip.
  assert (Hc : status a = completed) by (apply (HI2 id a Hl); eauto).
  congruence.
Qed.





(** X18. An event changes only records of the user who acts: when a record
    differs after an event of a doctor's dashboard, that doctor is the
    record's doctor; when it differs after an event of a patient's
    dashboard, that patient is the record's patient; and a booking changes
    no existing record. *)
Theorem X18_events_change_only_own_records (w w' : World) (e : Event)
    (id : string) (a a' : Appointment) :
  step w e = Some w' →
  store w !! id = Some a →
  store w' !! id = Some a' →
  a' ≠ a →
  ownRecord e a.
Proof.
  intros Hstep Hl Hl' Hne.
  destruct (step_store_cases w w' e Hstep)
    as [Heq|[(up & doctors & today & form & newId & now & -> & Hfresh & Hh)
            |(id0 & a0 & a0' & Hl0 & Heq & _ & Hown)]].
  - rewrite Heq, Hl in Hl'. by injection Hl' as <-.
  - pose proof (handleSubmit_store (store w) up doctors today form newId now)
      as Hs. rewrite Hh in Hs. simpl in Hs.
    destruct Hs as [[Hno _]|[_ (a0 & Heq & _)]]; [done|].
    rewrite Heq, lookup_insert_ne in Hl' by congruence.
    rewrite Hl in Hl'. by injection Hl' as <-.
  - rewrite Heq in Hl'. destruct (decide (id0 = id)) as [->|Hother].
    + rewrite Hl in Hl0. by injection Hl0 as <-.
    + rewrite lookup_insert_ne, Hl in Hl' by done. by injection Hl' as <-.
Qed.

(** Dr Grey completes her own record "a1". *)
Lemma X18_witness :
  step Sample.prescribing (ClickComplete "d1" "a1") = Some Sample.afterPrescribing
  ∧ doctorId (Sample.visit "2025-06-01" "09:00" in_progress None None) = "d1".
Proof.
  assert (Hstep : step Sample.prescribing (ClickComplete "d1" "a1")
                  = Some Sample.afterPrescribing) by (by vm_compute).
  split; [exact Hstep|].
  apply (X18_events_change_only_own_records Sample.prescribing
           Sample.afterPrescribing (ClickComplete "d1" "a1") "a1"
           (Sample.visit "2025-06-01" "09:00" in_progress None None)
           (Sample.visit "2025-06-01" "09:00" completed (Some Sample.amoxicillin)
              None) Hstep); by vm_compute.
Defined.



(** X20. A handler called for a document that does not exist writes nothing
    and keeps the form: [updateAppointmentStatus] answers 'Failed to update
    appointment status'; [handlePrescriptionSubmit] answers the missing
    medicine or 'Failed to add prescription' and keeps the entered
    prescription and the selection; [handleFeedbackSubmit] stores nothing
    and keeps the entered feedback. *)
Theorem X20_missing_document_changes_nothing (db : gmap string Appointment)
    (id : string) :
  db !! id = None →
  (∀ newStatus,
     DoctorDashboard.updateAppointmentStatus db id newStatus
     = (DoctorDashboard.StatusUpdateFailed, db))
  ∧ (∀ st,
       DoctorDashboard.handlePrescriptionSubmit db st id
       = (if truthy (trim (medicine (DoctorDashboard.prescriptionData st)))
          then DoctorDashboard.PrescriptionFailed
          else DoctorDashboard.MedicineMissing, db, st))
  ∧ (∀ st,
       (PatientDashboard.handleFeedbackSubmit db st id).1.1
       ≠ PatientDashboard.FeedbackStored
       ∧ (PatientDashboard.handleFeedbackSubmit db st id).1.2 = db
       ∧ (PatientDashboard.handleFeedbackSubmit db st id).2 = st).
Proof.
  intros Hnone. split; [|split].
  - intros newStatus. unfold DoctorDashboard.updateAppointmentStatus, updateDoc.
    by rewrite Hnone.
  - intros st. unfold DoctorDashboard.handlePrescriptionSubmit, updateDoc.
    rewrite Hnone. by destruct (truthy _).
  - intros st. unfold PatientDashboard.handleFeedbackSubmit, updateDoc.
    rewrite Hnone.
    destruct (PatientDashboard.feedbackData st !! id) as [f|]; [|done].
    by destruct (rating f =? 0).
Qed.

(** On the empty store every handler fails for "a1" and changes nothing. *)
Lemma X20_witness :
  DoctorDashboard.updateAppointmentStatus ∅ "a1" confirmed
  = (DoctorDashboard.StatusUpdateFailed, ∅)
  ∧ DoctorDashboard.handlePrescriptionSubmit ∅ Sample.greyPrescribing "a1"
    = (DoctorDashboard.PrescriptionFailed, ∅, Sample.greyPrescribing).
Proof.
  destruct (X20_missing_document_changes_nothing ∅ "a1") as (Hs & Hp & _).
  - apply lookup_empty.
  - split; [apply Hs | apply (Hp Sample.greyPrescribing)].
Defined.

(** ** The live queries *)

Lemma NoDup_filter_keys {A : Type} (f : string * A → bool)
    (l : list (string * A)) :
  NoDup l.*1 → NoDup (List.filter f l).*1.
Proof.
  induction l as [|x l IH]; simpl; [done|].
  intros [Hx Hl]%NoDup_cons. destruct (f x); simpl; [|by apply IH].
  apply NoDup_cons. split; [|by apply IH].
  intros (y & Hy & Hin%elem_of_filter_bool)%list_elem_of_fmap.
  apply Hx. apply list_elem_of_fmap. exists y. by destruct Hin.
Qed.

